(** * YouTubeSubscriptionTransfer: the resumable batch-transfer engine

    A shallow embedding of [youtube_subscription_transfer.py]: the snapshot
    store ([save_subscriptions], [load_subscriptions]), the retry policy
    ([subscribe_to_channel]), the progress ledger ([save_progress],
    [load_progress], [clear_progress]) and the engine
    ([import_subscriptions], [is_already_subscribed]).

    The program talks to a file system, to the remote API, to the clock and to
    [time.sleep].  These are modelled by a state-and-exception monad over a
    [World] (the files and the chronological list of external actions) that
    reads the answers of the outside from an [Env].  Calls to [logger] have no
    influence on control flow and are left out; they append to the console
    and to [LOG_FILE], so the files of a [World] are the files other than
    the log. *)

From Stdlib Require Import ZArith QArith String List Lia.
From stdpp Require Import base gmap strings list fin_maps.

Local Open Scope string_scope.
Local Open Scope list_scope.
Local Open Scope Z_scope.

(** ** Python values

    The fragment of Python values that [json.dump] writes in this program:
    [None], booleans, integers, strings, lists and string-keyed dicts (in
    insertion order).  Floats, which the program never writes but which
    [json.load] returns from a file that holds one, are not part of it:
    what is said of a value read ranges over this fragment. *)

#[warnings="-register-all"] Inductive pyval : Type :=
  | PNone
  | PBool (b : bool)
  | PInt (z : Z)
  | PStr (s : string)
  | PList (l : list pyval)
  | PDict (d : list (string * pyval)).

(** [d[key]] on the items of a dict. *)
Fixpoint assoc {V : Type} (key : string) (d : list (string * V)) : option V :=
  match d with
  | [] => None
  | (k, v) :: rest => if String.eqb k key then Some v else assoc key rest
  end.

(** Truth value of an object, as tested by [if progress:]. *)
Definition truthy (v : pyval) : bool :=
  match v with
  | PNone => false
  | PBool b => b
  | PInt z => negb (z =? 0)
  | PStr s => negb (String.eqb s "")
  | PList l => match l with [] => false | _ => true end
  | PDict d => match d with [] => false | _ => true end
  end.

(** ** Exceptions and outcomes *)

Inductive exn : Type :=
  | KeyboardInterrupt
  | HttpError (error_details : pyval)   (* e.error_details, as the response gave it *)
  | OtherException (name : string).

(** [except Exception] catches every exception but the operator's interrupt,
    which derives from [BaseException]. *)
Definition is_Exception (e : exn) : bool :=
  match e with
  | KeyboardInterrupt => false
  | _ => true
  end.

Inductive outcome (A : Type) : Type :=
  | Ret (a : A)
  | Raise (e : exn).
Arguments Ret {A} a.
Arguments Raise {A} e.

(** ** The outside *)

Inductive request : Type :=
  | ReqList (channel_id : string)      (* subscriptions().list(forChannelId=..., mine=True) *)
  | ReqInsert (channel_id : string).   (* subscriptions().insert(part='snippet', body=...) *)

Inductive api_outcome : Type :=
  | ApiReturns (items : nat)           (* execute() returns; [items] = len(response.get('items', [])) *)
  | ApiHttpError (error_details : pyval)
  | ApiException.                      (* any other exception out of execute() *)

Inductive disk_outcome : Type :=
  | DiskOk
  | DiskError    (* the call raises and leaves the file as it was *)
  | DiskTorn.    (* a write raises after open(..., 'w') has truncated the file *)

Inductive file : Type :=
  | FJson (doc : pyval)   (* a complete JSON document *)
  | FCorrupt.             (* text that json.load rejects *)

Inductive event : Type :=
  | EvApi (r : request)
  | EvSleep (seconds : Q)
  | EvWrite (path : string) (doc : pyval)
  | EvRead (path : string)
  | EvRemove (path : string).

(** The answers of the outside, indexed by the number of external actions the
    run has performed so far. *)
Record Env : Type := {
  env_interrupt : nat -> bool;              (* the operator interrupts the process here *)
  env_api : nat -> request -> api_outcome;
  env_read : nat -> disk_outcome;
  env_write : nat -> disk_outcome;
  env_remove : nat -> disk_outcome;
  env_now : nat -> string                   (* datetime.now().isoformat() *)
}.

Record World : Type := {
  fs : gmap string file;
  trace : list event
}.

Definition M (A : Type) : Type := Env -> World -> outcome A * World.

Definition ret {A : Type} (a : A) : M A := fun _ w => (Ret a, w).

Definition raise {A : Type} (e : exn) : M A := fun _ w => (Raise e, w).

Definition bind {A B : Type} (m : M A) (k : A -> M B) : M B :=
  fun env w =>
    match m env w with
    | (Ret a, w') => k a env w'
    | (Raise e, w') => (Raise e, w')
    end.

Notation "'let*' x ':=' m 'in' k" := (bind m (fun x => k))
  (at level 10, x name, m at level 100, k at level 200, only parsing).
Notation "'let*' ' pat ':=' m 'in' k" :=
  (bind m (fun x => match x with pat => k end))
  (at level 10, pat pattern, m at level 100, k at level 200, only parsing).

(** [try: body / except ...: handlers].  [handlers e = None] when no clause
    matches [e]; a handler runs outside the protection of the [try]. *)
Definition try_ {A : Type} (body : M A) (handlers : exn -> option (M A)) : M A :=
  fun env w =>
    match body env w with
    | (Ret a, w') => (Ret a, w')
    | (Raise e, w') =>
        match handlers e with
        | Some h => h env w'
        | None => (Raise e, w')
        end
    end.

Definition except_Exception {A : Type} (h : M A) : exn -> option (M A) :=
  fun e => if is_Exception e then Some h else None.

Definition now_ticks (w : World) : nat := length (trace w).

Definition record_event (ev : event) (w : World) : World :=
  {| fs := fs w; trace := trace w ++ [ev] |}.

(** An external action: the interrupt, if it comes, comes before the action
    takes effect. *)
Definition external {A : Type} (ev : event)
    (effect : Env -> nat -> World -> outcome A * World) : M A :=
  fun env w =>
    if env_interrupt env (now_ticks w) then (Raise KeyboardInterrupt, w)
    else effect env (now_ticks w) (record_event ev w).

(** [request.execute()] *)
Definition execute (r : request) : M nat :=
  external (EvApi r) (fun env t w =>
    match env_api env t r with
    | ApiReturns items => (Ret items, w)
    | ApiHttpError d => (Raise (HttpError d), w)
    | ApiException => (Raise (OtherException "Exception"), w)
    end).

(** [time.sleep(seconds)].  The delays of the retry policy are positive and
    [main] rejects a negative [--wait], so the call is taken not to raise. *)
Definition sleep (seconds : Q) : M unit :=
  external (EvSleep seconds) (fun _ _ w => (Ret tt, w)).

(** [datetime.now().isoformat()] *)
Definition datetime_now : M string :=
  fun env w => (Ret (env_now env (now_ticks w)), w).

(** [os.path.exists(path)] *)
Definition path_exists (path : string) : M bool :=
  fun _ w => (Ret (bool_decide (is_Some (fs w !! path))), w).

(** [with open(path, 'w', encoding='utf-8') as f: json.dump(doc, f, ...)] *)
Definition write_json (path : string) (doc : pyval) : M unit :=
  external (EvWrite path doc) (fun env t w =>
    match env_write env t with
    | DiskOk => (Ret tt, {| fs := <[path := FJson doc]> (fs w); trace := trace w |})
    | DiskError => (Raise (OtherException "OSError"), w)
    | DiskTorn =>
        (Raise (OtherException "OSError"),
         {| fs := <[path := FCorrupt]> (fs w); trace := trace w |})
    end).

(** [with open(path, 'r', encoding='utf-8') as f: json.load(f)] *)
Definition read_json (path : string) : M pyval :=
  external (EvRead path) (fun env t w =>
    match env_read env t with
    | DiskOk =>
        match fs w !! path with
        | Some (FJson doc) => (Ret doc, w)
        | Some FCorrupt => (Raise (OtherException "JSONDecodeError"), w)
        | None => (Raise (OtherException "FileNotFoundError"), w)
        end
    | _ => (Raise (OtherException "OSError"), w)
    end).

(** [os.remove(path)] *)
Definition os_remove (path : string) : M unit :=
  external (EvRemove path) (fun env t w =>
    match env_remove env t with
    | DiskOk =>
        match fs w !! path with
        | Some _ => (Ret tt, {| fs := delete path (fs w); trace := trace w |})
        | None => (Raise (OtherException "FileNotFoundError"), w)
        end
    | _ => (Raise (OtherException "OSError"), w)
    end).

(** [obj.get(key, default)]: only a dict has the method. *)
Definition py_get (obj : pyval) (key : string) (default : pyval) : M pyval :=
  match obj with
  | PDict d => ret (match assoc key d with Some v => v | None => default end)
  | _ => raise (OtherException "AttributeError")
  end.

(** [len(obj)] *)
Definition py_len (obj : pyval) : M Z :=
  match obj with
  | PList l => ret (Z.of_nat (length l))
  | PDict d => ret (Z.of_nat (length d))
  | PStr s => ret (Z.of_nat (String.length s))
  | _ => raise (OtherException "TypeError")
  end.

(** [obj + 1]: defined on integers (a bool is an integer); [None], strings,
    lists and dicts raise. *)
Definition py_add1 (obj : pyval) : M Z :=
  match obj with
  | PInt z => ret (z + 1)
  | PBool b => ret ((if b then 1 else 0) + 1)
  | _ => raise (OtherException "TypeError")
  end.

(** [obj[key]] for a string [key]. *)
Definition py_item (obj : pyval) (key : string) : M pyval :=
  match obj with
  | PDict d =>
      match assoc key d with
      | Some v => ret v
      | None => raise (OtherException "KeyError")
      end
  | _ => raise (OtherException "TypeError")
  end.

(** [obj[0]] *)
Definition py_first (obj : pyval) : M pyval :=
  match obj with
  | PList (x :: _) => ret x
  | PList [] => raise (OtherException "IndexError")
  | PStr (String a _) => ret (PStr (String a EmptyString))
  | PStr EmptyString => raise (OtherException "IndexError")
  | PDict _ => raise (OtherException "KeyError")
  | _ => raise (OtherException "TypeError")
  end.

(** [obj == s] for a string literal [s]. *)
Definition py_eq_str (obj : pyval) (s : string) : bool :=
  match obj with
  | PStr r => String.eqb r s
  | _ => false
  end.

(** ** Configuration *)

Definition SUBSCRIPTIONS_DATA_FILE : string := "subscriptions_backup.json".
Definition PROGRESS_FILE : string := "transfer_progress.json".
Definition LOG_FILE : string := "youtube_transfer.log".

(** ** Data model *)

Record Subscription : Type := {
  channel_id : string;
  channel_title : string;
  channel_description : string;
  published_at : string;
  subscription_id : string
}.

(** The dict that [extract_subscriptions] builds for one subscription. *)
Definition subscription_data (s : Subscription) : pyval :=
  PDict [("channel_id", PStr (channel_id s));
         ("channel_title", PStr (channel_title s));
         ("channel_description", PStr (channel_description s));
         ("published_at", PStr (published_at s));
         ("subscription_id", PStr (subscription_id s))].

Record Stats : Type := {
  total : Z;
  successful : Z;
  failed : Z;
  already_subscribed : Z;
  skipped : Z
}.

(** The object [self]: [resume_mode] and [wait_time] ([youtube_service] is the
    API of the [Env]). *)
Record YouTubeSubscriptionTransfer : Type := {
  resume_mode : bool;
  wait_time : Q
}.

(** ** Snapshot store *)

Definition save_subscriptions (subscriptions : list Subscription)
    (filename : option string) : M bool :=
  let filename := default SUBSCRIPTIONS_DATA_FILE filename in
  try_
    (let* export_date := datetime_now in
     let backup_data :=
       PDict [("export_date", PStr export_date);
              ("total_subscriptions", PInt (Z.of_nat (length subscriptions)));
              ("subscriptions", PList (map subscription_data subscriptions))] in
     let* _ := write_json filename backup_data in
     ret true)
    (except_Exception (ret false)).

Definition load_subscriptions (filename : option string) : M pyval :=
  let filename := default SUBSCRIPTIONS_DATA_FILE filename in
  try_
    (let* data := read_json filename in
     let* subscriptions := py_get data "subscriptions" (PList []) in
     let* _ := py_len subscriptions in          (* the log line takes len(subscriptions) *)
     ret subscriptions)
    (except_Exception (ret (PList []))).

(** ** Retry policy *)

(** [range(n)] *)
Definition range (n : Z) : list Z := map Z.of_nat (seq 0 (Z.to_nat n)).

(** [e.error_details[0] if e.error_details else {}], then
    [.get('reason', 'unknown')]: both can raise. *)
Definition error_reason (error_details : pyval) : M pyval :=
  let* error_details :=
    if truthy error_details then py_first error_details else ret (PDict []) in
  py_get error_details "reason" (PStr "unknown").

(** One turn of the [for attempt in range(max_retries)] loop: [Some b] is
    [return b], [None] goes on to the next attempt ([continue], or the end of
    an [except] clause).  What the handler of [HttpError] raises itself is
    caught by nothing. *)
Definition subscribe_attempt (channel_id : string) (max_retries attempt : Z)
    : M (option bool) :=
  try_
    (let* _ := execute (ReqInsert channel_id) in
     ret (Some true))
    (fun e =>
       match e with
       | HttpError error_details =>
           Some
             (let* reason := error_reason error_details in
              if py_eq_str reason "subscriptionDuplicate" then ret (Some true)
              else if py_eq_str reason "channelNotFound" then ret (Some false)
              else if py_eq_str reason "quotaExceeded" then ret (Some false)
              else if py_eq_str reason "rateLimitExceeded"
                      || py_eq_str reason "userRateLimitExceeded" then
                if attempt <? max_retries - 1 then
                  let* _ := sleep (inject_Z (2 ^ attempt * 5)) in
                  ret None
                else ret (Some false)
              else
                if attempt <? max_retries - 1 then
                  let* _ := sleep (inject_Z ((attempt + 1) * 2)) in
                  ret None
                else ret None)
       | OtherException _ =>
           Some
             (if attempt <? max_retries - 1 then
                let* _ := sleep (inject_Z ((attempt + 1) * 2)) in
                ret None
              else ret None)
       | KeyboardInterrupt => None
       end).

Fixpoint subscribe_loop (channel_id : string) (max_retries : Z)
    (attempts : list Z) : M bool :=
  match attempts with
  | [] => ret false
  | attempt :: rest =>
      let* r := subscribe_attempt channel_id max_retries attempt in
      match r with
      | Some b => ret b
      | None => subscribe_loop channel_id max_retries rest
      end
  end.

Definition subscribe_to_channel (channel_id channel_title : string)
    (max_retries : Z) : M bool :=
  subscribe_loop channel_id max_retries (range max_retries).

(** ** Progress ledger *)

Definition progress_data (index : Z) (channel_id : string) (total : Z)
    (timestamp : string) : pyval :=
  PDict [("last_processed_index", PInt index);
         ("last_channel_id", PStr channel_id);
         ("total_subscriptions", PInt total);
         ("timestamp", PStr timestamp)].

Definition save_progress (index : Z) (channel_id : string) (total : Z) : M unit :=
  let* timestamp := datetime_now in
  try_
    (write_json PROGRESS_FILE (progress_data index channel_id total timestamp))
    (except_Exception (ret tt)).

(** [Some doc] is the [return json.load(f)] inside the [try]; otherwise control
    reaches the final [return {}]. *)
Definition load_progress : M pyval :=
  let* r :=
    try_
      (let* present := path_exists PROGRESS_FILE in
       if present then
         let* doc := read_json PROGRESS_FILE in
         ret (Some doc)
       else ret None)
      (except_Exception (ret None)) in
  match r with
  | Some doc => ret doc
  | None => ret (PDict [])
  end.

Definition clear_progress : M unit :=
  try_
    (let* present := path_exists PROGRESS_FILE in
     if present then os_remove PROGRESS_FILE else ret tt)
    (except_Exception (ret tt)).

(** ** Engine *)

Definition is_already_subscribed (channel_id : string) : M bool :=
  try_
    (let* items := execute (ReqList channel_id) in
     ret (0 <? items)%nat)
    (fun e =>
       match e with
       | HttpError _ => Some (ret false)
       | _ => None
       end).

Definition incr_successful (s : Stats) : Stats :=
  {| total := total s; successful := successful s + 1; failed := failed s;
     already_subscribed := already_subscribed s; skipped := skipped s |}.

Definition incr_failed (s : Stats) : Stats :=
  {| total := total s; successful := successful s; failed := failed s + 1;
     already_subscribed := already_subscribed s; skipped := skipped s |}.

Definition incr_already_subscribed (s : Stats) : Stats :=
  {| total := total s; successful := successful s; failed := failed s;
     already_subscribed := already_subscribed s + 1; skipped := skipped s |}.

Definition set_skipped (s : Stats) (n : Z) : Stats :=
  {| total := total s; successful := successful s; failed := failed s;
     already_subscribed := already_subscribed s; skipped := n |}.

(** Lines 387-399: the start index and the statistics as the loop finds
    them. *)
Definition resume_offset (self : YouTubeSubscriptionTransfer) (stats : Stats)
    : M (Z * Stats) :=
  if resume_mode self then
    let* progress := load_progress in
    if truthy progress then
      let* last := py_get progress "last_processed_index" (PInt 0) in
      let* start_index := py_add1 last in
      ret (start_index, set_skipped stats start_index)
    else ret (0, stats)
  else
    let* _ := clear_progress in
    ret (0, stats).

(** The body of the loop for an item that is not skipped (lines 408-435;
    the progress line every 10 items only logs). *)
Definition process_item (self : YouTubeSubscriptionTransfer) (i : Z)
    (subscription : Subscription) (stats : Stats) : M Stats :=
  let channel_id := channel_id subscription in
  let channel_title := channel_title subscription in
  let* _ := save_progress i channel_id (total stats) in
  let* already := is_already_subscribed channel_id in
  if already then ret (incr_already_subscribed stats)        (* continue *)
  else
    let* ok := subscribe_to_channel channel_id channel_title 3 in
    let stats := if ok then incr_successful stats else incr_failed stats in
    let* _ := sleep (wait_time self) in
    ret stats.

(** [for i, subscription in enumerate(subscriptions)], from index [i] on. *)
Fixpoint import_loop (self : YouTubeSubscriptionTransfer) (start_index : Z)
    (i : Z) (subscriptions : list Subscription) (stats : Stats) : M Stats :=
  match subscriptions with
  | [] => ret stats
  | subscription :: rest =>
      if i <? start_index then
        import_loop self start_index (i + 1) rest stats      (* continue *)
      else
        let* stats := process_item self i subscription stats in
        import_loop self start_index (i + 1) rest stats
  end.

Definition import_subscriptions (self : YouTubeSubscriptionTransfer)
    (subscriptions : list Subscription) : M Stats :=
  let stats :=
    {| total := Z.of_nat (length subscriptions); successful := 0; failed := 0;
       already_subscribed := 0; skipped := 0 |} in
  let* '(start_index, stats) := resume_offset self stats in
  let* stats := import_loop self start_index 0 subscriptions stats in
  let* _ := clear_progress in
  ret stats.


(** ** Extraction, channel information and the menu

    The listing calls whose response the program reads.  Their answers are a
    parameter of the functions below (the service the caller has
    authenticated); of these functions only the waits appear in the trace. *)

Inductive listing_outcome : Type :=
  | ListingReturns (response : pyval)
  | ListingHttpError (error_details : pyval)
  | ListingException.

(** [request.execute()] with the answer [o]. *)
Definition listing (o : listing_outcome) : M pyval :=
  match o with
  | ListingReturns response => ret response
  | ListingHttpError d => raise (HttpError d)
  | ListingException => raise (OtherException "Exception")
  end.

(** The elements [for item in obj] goes through. *)
Definition py_iter (obj : pyval) : M (list pyval) :=
  match obj with
  | PList l => ret l
  | PDict d => ret (map (fun kv => PStr (fst kv)) d)
  | PStr s => ret (map (fun a => PStr (String a EmptyString)) (list_ascii_of_string s))
  | _ => raise (OtherException "TypeError")
  end.

(** [min(a, b)] *)
Definition py_min (a b : Q) : Q :=
  match (b ?= a)%Q with
  | Lt => b
  | _ => a
  end.

(** The dict literal of lines 164-170, its entries evaluated in order. *)
Definition extract_item (item : pyval) : M pyval :=
  let* snippet := py_item item "snippet" in
  let* resourceId := py_item snippet "resourceId" in
  let* channelId := py_item resourceId "channelId" in
  let* snippet := py_item item "snippet" in
  let* title := py_item snippet "title" in
  let* snippet := py_item item "snippet" in
  let* description := py_get snippet "description" (PStr "") in
  let* snippet := py_item item "snippet" in
  let* publishedAt := py_item snippet "publishedAt" in
  let* id := py_item item "id" in
  ret (PDict [("channel_id", channelId);
              ("channel_title", title);
              ("channel_description", description);
              ("published_at", publishedAt);
              ("subscription_id", id)]).

(** [for item in ...: subscriptions.append(subscription_data)] *)
Fixpoint collect_items (items : list pyval) (subscriptions : list pyval)
    : M (list pyval) :=
  match items with
  | [] => ret subscriptions
  | item :: rest =>
      let* data := extract_item item in
      collect_items rest (subscriptions ++ [data])
  end.

(** One turn of the [while True] loop of [extract_subscriptions], for the
    call of rank [n]: the list so far and [Some token] to go on, [None] after
    a [break].  An [HttpError] can only come from [execute()], before anything
    is appended. *)
Definition extract_page (self : YouTubeSubscriptionTransfer)
    (pages : nat -> pyval -> listing_outcome) (n : nat)
    (subscriptions : list pyval) (next_page_token : pyval)
    : M (list pyval * option pyval) :=
  try_
    (let* response := listing (pages n next_page_token) in
     let* items := py_get response "items" (PList []) in
     let* items := py_iter items in
     let* subscriptions := collect_items items subscriptions in
     let* items := py_get response "items" (PList []) in
     let* _ := py_len items in
     let* next_page_token := py_get response "nextPageToken" PNone in
     if negb (truthy next_page_token) then ret (subscriptions, None)
     else
       let* _ := sleep (py_min (1 # 10) (wait_time self)) in
       ret (subscriptions, Some next_page_token))
    (fun e =>
       match e with
       | HttpError _ => Some (ret (subscriptions, None))
       | _ => None
       end).

(** The loop, for at most [fuel] turns; [None] when it is still running. *)
Fixpoint extract_pages (fuel : nat) (self : YouTubeSubscriptionTransfer)
    (pages : nat -> pyval -> listing_outcome) (n : nat)
    (subscriptions : list pyval) (next_page_token : pyval)
    : M (option (list pyval)) :=
  match fuel with
  | O => ret None
  | S fuel' =>
      let* '(subscriptions, continue) :=
        extract_page self pages n subscriptions next_page_token in
      match continue with
      | None => ret (Some subscriptions)
      | Some next_page_token =>
          extract_pages fuel' self pages (S n) subscriptions next_page_token
      end
  end.

Definition extract_subscriptions (fuel : nat) (self : YouTubeSubscriptionTransfer)
    (pages : nat -> pyval -> listing_outcome) : M (option (list pyval)) :=
  extract_pages fuel self pages 0 [] PNone.

(** [answer] is what [channels().list(part='snippet', mine=True).execute()]
    does.  [Some info] is the [return] inside the [try]; otherwise control
    reaches the final [return None]. *)
Definition get_channel_info (answer : listing_outcome) : M pyval :=
  let* r :=
    try_
      (let* response := listing answer in
       let* items := py_item response "items" in
       if truthy items then
         let* items := py_item response "items" in
         let* channel := py_first items in
         let* id := py_item channel "id" in
         let* snippet := py_item channel "snippet" in
         let* title := py_item snippet "title" in
         let* snippet := py_item channel "snippet" in
         let* description := py_get snippet "description" (PStr "") in
         let* snippet := py_item channel "snippet" in
         let* customUrl := py_get snippet "customUrl" (PStr "") in
         ret (Some (PDict [("id", id);
                           ("title", title);
                           ("description", description);
                           ("customUrl", customUrl)]))
       else ret None)
      (fun e =>
         match e with
         | HttpError _ => Some (ret None)
         | _ => None
         end) in
  match r with
  | Some info => ret info
  | None => ret PNone
  end.

(** The branches of the menu of [main] (lines 522-648). *)
Inductive menu_branch : Type :=
  | MenuExtract
  | MenuImport
  | MenuResume
  | MenuView
  | MenuClear
  | MenuExit
  | MenuInvalid.

(** Line 519; [existing_progress] is the truth value of the object. *)
Definition max_choice (existing_progress args_resume : bool) : Z :=
  if existing_progress && negb args_resume then 6
  else if existing_progress then 5 else 4.

(** The branch the [if]/[elif] chain takes. *)
Definition menu_dispatch (choice : string) (existing_progress args_resume : bool)
    : menu_branch :=
  if String.eqb choice "1" then MenuExtract
  else if String.eqb choice "2" then MenuImport
  else if String.eqb choice "3" && existing_progress && negb args_resume
  then MenuResume
  else if (String.eqb choice "3" && negb existing_progress)
          || (String.eqb choice "4" && existing_progress && negb args_resume)
          || (String.eqb choice "3" && args_resume)
  then MenuView
  else if (String.eqb choice "5" && existing_progress && negb args_resume)
          || (String.eqb choice "4" && existing_progress && args_resume)
  then MenuClear
  else if (String.eqb choice "6" && existing_progress && negb args_resume)
          || (String.eqb choice "5" && existing_progress && args_resume)
          || (String.eqb choice "4" && negb existing_progress)
  then MenuExit
  else MenuInvalid.

(** Lines 586-588: the number of channels the resume branch of the menu
    announces, for [n = len(subscriptions)]. *)
Definition resume_remaining (progress : pyval) (n : Z) : M Z :=
  let* last_index := py_get progress "last_processed_index" (PInt (-1)) in
  let* next := py_add1 last_index in
  ret (n - next).

(** * Properties *)

(** ** Vocabulary of the statements *)

(** The operator never interrupts the process. *)
Definition never_interrupted (env : Env) : Prop :=
  forall t, env_interrupt env t = false.

(** Error details in which the handler of [subscribe_to_channel] finds a
    reason (or the default), rather than raising while it looks. *)
Definition readable (error_details : pyval) : Prop :=
  exists reason, forall env w, error_reason error_details env w = (Ret reason, w).

(** Every [HttpError] of a mutation call carries readable details. *)
Definition insert_errors_readable (env : Env) : Prop :=
  forall t c d, env_api env t (ReqInsert c) = ApiHttpError d -> readable d.

(** A run that nothing cuts short: no interrupt from the operator; the
    pre-check query fails, if it fails, with an [HttpError] (the only
    exception [is_already_subscribed] contains; any other one would leave
    [import_subscriptions] and end the run); and the [HttpError] of a mutation
    call has details the retry policy can read (what its handler raises while
    reading them would leave [import_subscriptions] as well). *)
Record uninterrupted (env : Env) : Prop := {
  no_interrupt : never_interrupted env;
  query_http_only : forall t c, env_api env t (ReqList c) <> ApiException;
  errors_readable : insert_errors_readable env
}.

(** [os.remove] never fails. *)
Definition removes_ok (env : Env) : Prop := forall t, env_remove env t = DiskOk.

(** The world after the further actions [d], files untouched. *)
Definition extend (w : World) (d : list event) : World :=
  {| fs := fs w; trace := trace w ++ d |}.

(** [successful + failed + already_subscribed] *)
Definition tally (s : Stats) : Z := successful s + failed s + already_subscribed s.

(** The actions [subscribe_to_channel] may take for channel [c]. *)
Definition retry_event (c : string) (ev : event) : Prop :=
  match ev with
  | EvApi (ReqInsert c') => c' = c
  | EvSleep _ => True
  | _ => False
  end.

(** The actions of one turn of the loop of [import_subscriptions] for the item
    at index [i], and what they make of the statistics. *)
Inductive item_block (self : YouTubeSubscriptionTransfer) (i : Z)
    (sub : Subscription) (s : Stats) : list event -> Stats -> Prop :=
  | block_already ts :
      item_block self i sub s
        [EvWrite PROGRESS_FILE (progress_data i (channel_id sub) (total s) ts);
         EvApi (ReqList (channel_id sub))]
        (incr_already_subscribed s)
  | block_attempted ts r (ok : bool) :
      Forall (retry_event (channel_id sub)) r ->
      item_block self i sub s
        (EvWrite PROGRESS_FILE (progress_data i (channel_id sub) (total s) ts)
           :: EvApi (ReqList (channel_id sub))
           :: r ++ [EvSleep (wait_time self)])
        (if ok then incr_successful s else incr_failed s).

(** The actions of the whole loop from index [i] on: one block per item whose
    index is not below [start], in order. *)
Inductive blocks (self : YouTubeSubscriptionTransfer) (start : Z)
    : Z -> list Subscription -> Stats -> list event -> Stats -> Prop :=
  | blocks_nil i s : blocks self start i [] s [] s
  | blocks_skip i sub rest s d s' :
      i < start ->
      blocks self start (i + 1) rest s d s' ->
      blocks self start i (sub :: rest) s d s'
  | blocks_item i sub rest s d1 s1 d2 s' :
      start <= i ->
      item_block self i sub s d1 s1 ->
      blocks self start (i + 1) rest s1 d2 s' ->
      blocks self start i (sub :: rest) s (d1 ++ d2) s'.

(** The index a progress write records, if the action is one. *)
Definition saved_index (ev : event) : option Z :=
  match ev with
  | EvWrite path (PDict d) =>
      if String.eqb path PROGRESS_FILE then
        match assoc "last_processed_index" d with
        | Some (PInt i) => Some i
        | _ => None
        end
      else None
  | _ => None
  end.

(** The indices the run has visited, in order. *)
Definition visited (tr : list event) : list Z := omap saved_index tr.

(** The channels a mutation was attempted for, in order. *)
Definition attempted (tr : list event) : list string :=
  omap (fun ev => match ev with EvApi (ReqInsert c) => Some c | _ => None end) tr.

(** The waits, in order. *)
Definition sleeps (tr : list event) : list Q :=
  omap (fun ev => match ev with EvSleep q => Some q | _ => None end) tr.

(** The indices [i, i+1, ...] of the items of [l]. *)
Fixpoint indices_from {A : Type} (i : Z) (l : list A) : list Z :=
  match l with
  | [] => []
  | _ :: rest => i :: indices_from (i + 1) rest
  end.

(** What the handler reads in the details of an [HttpError]: the value of
    [reason] in the first element of a non-empty list of dicts, ['unknown']
    when the details are false as a condition or the key is missing, and
    nothing when reading them raises. *)
Definition details_reason (error_details : pyval) : option pyval :=
  match error_details with
  | PList (PDict d :: _) =>
      Some (match assoc "reason" d with Some v => v | None => PStr "unknown" end)
  | _ => if truthy error_details then None else Some (PStr "unknown")
  end.

(** The outcomes of the mutation call that the retry policy tells apart: the
    reason it reads, when that is a string. *)
Definition insert_reason (o : api_outcome) : option string :=
  match o with
  | ApiHttpError d =>
      match details_reason d with
      | Some (PStr r) => Some r
      | _ => None
      end
  | _ => None
  end.

Definition is_rate_limited (o : api_outcome) : Prop :=
  insert_reason o = Some "rateLimitExceeded"
  \/ insert_reason o = Some "userRateLimitExceeded".

(** The initial statistics of a run over [n] items. *)
Definition initial_stats (n : nat) : Stats :=
  {| total := Z.of_nat n; successful := 0; failed := 0;
     already_subscribed := 0; skipped := 0 |}.

(** ** Concrete scenarios *)

Definition item (c : string) : Subscription :=
  {| channel_id := c; channel_title := "Channel " ++ c;
     channel_description := ""; published_at := "2024-01-01T00:00:00Z";
     subscription_id := "sub-" ++ c |}.

Definition empty_world : World := {| fs := ∅; trace := [] |}.

(** A world whose ledger holds the record of index [k]. *)
Definition world_with_record (k : Z) : World :=
  {| fs := {[ PROGRESS_FILE := FJson (progress_data k "A" 2 "2024-05-01T11:00:00") ]};
     trace := [] |}.

(** A new process on the files the previous one left. *)
Definition restart (w : World) : World := {| fs := fs w; trace := [] |}.

(** The error [execute()] raises with a given reason. *)
Definition http_error (reason : string) : api_outcome :=
  ApiHttpError
    (PList [PDict [("message", PStr "request failed");
                   ("domain", PStr "youtube.subscription");
                   ("reason", PStr reason)]]).

(** An outside without interrupts or disk faults, whose API answers every
    request by [api]. *)
Definition calm_env (api : request -> api_outcome) : Env :=
  {| env_interrupt := fun _ => false;
     env_api := fun _ => api;
     env_read := fun _ => DiskOk;
     env_write := fun _ => DiskOk;
     env_remove := fun _ => DiskOk;
     env_now := fun _ => "2024-05-01T12:00:00" |}.

(** Nobody is subscribed yet and every mutation succeeds. *)
Definition api_accepts (r : request) : api_outcome :=
  match r with
  | ReqList _ => ApiReturns 0
  | ReqInsert _ => ApiReturns 1
  end.

(** The destination account is subscribed to everything already. *)
Definition api_subscribed (r : request) : api_outcome := ApiReturns 1.

(** Every mutation hits the rate limit. *)
Definition api_rate_limited (r : request) : api_outcome :=
  match r with
  | ReqList _ => ApiReturns 0
  | ReqInsert _ => http_error "rateLimitExceeded"
  end.

(** Every mutation finds the channel gone. *)
Definition api_not_found (r : request) : api_outcome :=
  match r with
  | ReqList _ => ApiReturns 0
  | ReqInsert _ => http_error "channelNotFound"
  end.

(** The operator interrupts the process at its second external action. *)
Definition interrupted_env : Env :=
  {| env_interrupt := fun t => Nat.eqb t 1;
     env_api := fun _ => api_accepts;
     env_read := fun _ => DiskOk;
     env_write := fun _ => DiskOk;
     env_remove := fun _ => DiskOk;
     env_now := fun _ => "2024-05-01T12:00:00" |}.

(** No interrupt, but every call to the disk fails. *)
Definition faulty_disk_env : Env :=
  {| env_interrupt := fun _ => false;
     env_api := fun _ => api_accepts;
     env_read := fun _ => DiskError;
     env_write := fun _ => DiskTorn;
     env_remove := fun _ => DiskError;
     env_now := fun _ => "2024-05-01T12:00:00" |}.

Definition fresh_tool : YouTubeSubscriptionTransfer :=
  {| resume_mode := false; wait_time := 1 # 2 |}.

Definition resuming_tool : YouTubeSubscriptionTransfer :=
  {| resume_mode := true; wait_time := 1 # 2 |}.

(** ** Vocabulary for the rest of the code *)

(** A computation that only adds to the trace and leaves every file but the
    progress record as it was, whatever the outside does and however it
    ends. *)
Definition tidy {A : Type} (m : M A) : Prop :=
  forall env w,
    (exists d, trace (snd (m env w)) = trace w ++ d)
    /\ (forall p, p <> PROGRESS_FILE -> fs (snd (m env w)) !! p = fs w !! p).

(** A mutation call that the retry policy takes for a passing trouble: any
    exception but [HttpError], or an [HttpError] with a reason it does not
    know. *)
Definition is_transient (o : api_outcome) : Prop :=
  o = ApiException
  \/ exists r, insert_reason o = Some r
              /\ r <> "subscriptionDuplicate" /\ r <> "channelNotFound"
              /\ r <> "quotaExceeded" /\ r <> "rateLimitExceeded"
              /\ r <> "userRateLimitExceeded".

(** A subscription resource as the API lists it. *)
Definition api_item (s : Subscription) : pyval :=
  PDict [("kind", PStr "youtube#subscription");
         ("id", PStr (subscription_id s));
         ("snippet",
          PDict [("publishedAt", PStr (published_at s));
                 ("title", PStr (channel_title s));
                 ("description", PStr (channel_description s));
                 ("resourceId",
                  PDict [("kind", PStr "youtube#channel");
                         ("channelId", PStr (channel_id s))])])].

(** [response.get('items', [])] and [response.get('nextPageToken')] *)
Definition page_items (d : list (string * pyval)) : pyval :=
  match assoc "items" d with Some v => v | None => PList [] end.

Definition page_token (d : list (string * pyval)) : pyval :=
  match assoc "nextPageToken" d with Some v => v | None => PNone end.

(** [paging pages n token chapters k]: from the call of rank [n] with page
    token [token] on, the service lists the subscriptions of [chapters], one
    page each, every page but the last naming a next page; the listing ends
    with a page that names none, or with an [HttpError] in place of a page;
    [k] pages name a next one. *)
Inductive paging (pages : nat -> pyval -> listing_outcome)
    : nat -> pyval -> list (list Subscription) -> nat -> Prop :=
  | paging_last n token d items :
      pages n token = ListingReturns (PDict d) ->
      page_items d = PList (map api_item items) ->
      truthy (page_token d) = false ->
      paging pages n token [items] 0
  | paging_failed n token e :
      pages n token = ListingHttpError e ->
      paging pages n token [] 0
  | paging_more n token d items rest k :
      pages n token = ListingReturns (PDict d) ->
      page_items d = PList (map api_item items) ->
      truthy (page_token d) = true ->
      paging pages (S n) (page_token d) rest k ->
      paging pages n token (items :: rest) (S k).

(** Mutation calls for channel [c] with the waits [waits] between them: call,
    wait, call, ..., call. *)
Fixpoint calls_and_waits (c : string) (waits : list Q) : list event :=
  match waits with
  | [] => [EvApi (ReqInsert c)]
  | q :: rest => EvApi (ReqInsert c) :: EvSleep q :: calls_and_waits c rest
  end.

(** The waits the policy takes after the attempt of index [attempt]: the
    exponential one of a rate limit, or the linear one of another trouble. *)
Definition is_backoff (attempt : Z) (q : Q) : Prop :=
  q = inject_Z (2 ^ attempt * 5) \/ q = inject_Z ((attempt + 1) * 2).

(** The labels of the menu entries. *)
Definition choice_labels : list string := ["1"; "2"; "3"; "4"; "5"; "6"].

(** ** Further scenarios *)

(** Every mutation fails with an [HttpError] whose details are a message. *)
Definition api_plain_error (r : request) : api_outcome :=
  match r with
  | ReqList _ => ApiReturns 0
  | ReqInsert _ => ApiHttpError (PStr "Forbidden")
  end.

(** Every mutation fails on the way to the service. *)
Definition api_unreachable (r : request) : api_outcome :=
  match r with
  | ReqList _ => ApiReturns 0
  | ReqInsert _ => ApiException
  end.

(** The pre-check fails with an [HttpError]; the quota is used up. *)
Definition api_quota (r : request) : api_outcome :=
  match r with
  | ReqList _ => http_error "forbidden"
  | ReqInsert _ => http_error "quotaExceeded"
  end.

(** A service that lists A and B, then C. *)
Definition two_pages (n : nat) (token : pyval) : listing_outcome :=
  match n with
  | O => ListingReturns
           (PDict [("items", PList [api_item (item "A"); api_item (item "B")]);
                   ("nextPageToken", PStr "page-2")])
  | S O => ListingReturns (PDict [("items", PList [api_item (item "C")])])
  | _ => ListingException
  end.

(** A service that lists A and B, then fails. *)
Definition second_page_fails (n : nat) (token : pyval) : listing_outcome :=
  match n with
  | O => ListingReturns
           (PDict [("items", PList [api_item (item "A"); api_item (item "B")]);
                   ("nextPageToken", PStr "page-2")])
  | _ => ListingHttpError (PList [PDict [("reason", PStr "backendError")]])
  end.

(** A listed subscription without a description. *)
Definition bare_item : pyval :=
  PDict [("id", PStr "sub-1");
         ("snippet",
          PDict [("publishedAt", PStr "2020-02-02T00:00:00Z");
                 ("title", PStr "Channel One");
                 ("resourceId", PDict [("channelId", PStr "UC1")])])].

(** A service whose only page holds, between A and C, an item without
    [snippet]. *)
Definition one_page_with_stray_item (n : nat) (token : pyval) : listing_outcome :=
  ListingReturns
    (PDict [("items", PList [api_item (item "A"); PDict [("id", PStr "sub-9")];
                             api_item (item "C")])]).

(** A world whose ledger holds [f]. *)
Definition world_with_ledger (f : file) : World :=
  {| fs := {[ PROGRESS_FILE := f ]}; trace := [] |}.

(** A world whose snapshot file holds [f]. *)
Definition world_with_snapshot (f : file) : World :=
  {| fs := {[ SUBSCRIPTIONS_DATA_FILE := f ]}; trace := [] |}.

(** A snapshot whose count disagrees with its list. *)
Definition miscounted_snapshot : pyval :=
  PDict [("export_date", PStr "2024-05-01T10:00:00");
         ("total_subscriptions", PInt 40);
         ("subscriptions", PList [subscription_data (item "A")])].

(** * Lemmas on the model *)

(** Decides the comparisons of two string literals in the goal. *)
Ltac eval_string_tests :=
  repeat match goal with
         | |- context [String.eqb ?a ?b] =>
             let v := eval vm_compute in (String.eqb a b) in
             change (String.eqb a b) with v
         end;
  cbn [orb]; cbv iota.

Lemma extend_extend w d1 d2 : extend (extend w d1) d2 = extend w (d1 ++ d2).
Proof. unfold extend; simpl. by rewrite <- app_assoc. Qed.

Lemma extend_nil w : extend w [] = w.
Proof. destruct w; unfold extend; simpl. by rewrite app_nil_r. Qed.

Lemma record_event_extend ev w : record_event ev w = extend w [ev].
Proof. reflexivity. Qed.

(** ** Ledger *)

Lemma save_progress_returns env w i c tot :
  never_interrupted env ->
  exists w',
    save_progress i c tot env w = (Ret tt, w')
    /\ trace w' = trace w
         ++ [EvWrite PROGRESS_FILE (progress_data i c tot (env_now env (now_ticks w)))]
    /\ (env_write env (now_ticks w) = DiskOk ->
        fs w' !! PROGRESS_FILE
        = Some (FJson (progress_data i c tot (env_now env (now_ticks w))))).
Proof.
  intros Hni.
  unfold save_progress, bind, datetime_now, try_, write_json, external.
  rewrite (Hni _).
  destruct (env_write env (now_ticks w)) eqn:Hw; simpl;
    eexists; (split; [reflexivity|]); split; try reflexivity; intros; try discriminate.
  simpl. apply lookup_insert_eq.
Qed.

Lemma clear_progress_returns env w :
  never_interrupted env ->
  exists w',
    clear_progress env w = (Ret tt, w')
    /\ trace w' = trace w
         ++ (if bool_decide (is_Some (fs w !! PROGRESS_FILE))
             then [EvRemove PROGRESS_FILE] else [])
    /\ (env_remove env (now_ticks w) = DiskOk -> fs w' !! PROGRESS_FILE = None).
Proof.
  intros Hni.
  unfold clear_progress, bind, path_exists, try_, os_remove, external.
  case_bool_decide as Hex; simpl.
  - rewrite (Hni _). simpl.
    destruct (env_remove env (now_ticks w)) eqn:Hr; simpl.
    + destruct Hex as [f Hf]. rewrite Hf. simpl.
      eexists; split; [reflexivity|]. split; [reflexivity|].
      intros _. simpl. apply lookup_delete_eq.
    + eexists; split; [reflexivity|]. split; [reflexivity|].
      intros Hok. discriminate.
    + eexists; split; [reflexivity|]. split; [reflexivity|].
      intros Hok. discriminate.
  - exists w. split; [reflexivity|]. split; [by rewrite app_nil_r|].
    intros _. destruct (fs w !! PROGRESS_FILE) eqn:E; [|done].
    exfalso. apply Hex. eauto.
Qed.

Lemma load_progress_returns env w :
  never_interrupted env ->
  exists doc w', load_progress env w = (Ret doc, w').
Proof.
  intros Hni.
  unfold load_progress, bind, path_exists, try_, read_json, external.
  case_bool_decide; simpl; [|by eauto].
  rewrite (Hni _).
  destruct (env_read env (now_ticks w)); simpl; [|by eauto..].
  destruct (fs w !! PROGRESS_FILE) as [[]|]; simpl; by eauto.
Qed.

Lemma load_progress_absent env w :
  fs w !! PROGRESS_FILE = None ->
  load_progress env w = (Ret (PDict []), w).
Proof.
  intros Hnone.
  unfold load_progress, bind, path_exists, try_.
  rewrite Hnone. rewrite bool_decide_eq_false_2; [done|].
  intros [? ?]; discriminate.
Qed.

Lemma load_progress_present env w doc :
  never_interrupted env ->
  env_read env (now_ticks w) = DiskOk ->
  fs w !! PROGRESS_FILE = Some (FJson doc) ->
  load_progress env w = (Ret doc, extend w [EvRead PROGRESS_FILE]).
Proof.
  intros Hni Hr Hdoc.
  unfold load_progress, bind, path_exists, try_, read_json, external.
  rewrite Hdoc. rewrite bool_decide_eq_true_2 by eauto.
  rewrite (Hni _), Hr. simpl. by rewrite Hdoc.
Qed.

Lemma load_progress_unreadable env w f :
  never_interrupted env ->
  fs w !! PROGRESS_FILE = Some f ->
  f = FCorrupt \/ env_read env (now_ticks w) <> DiskOk ->
  load_progress env w = (Ret (PDict []), extend w [EvRead PROGRESS_FILE]).
Proof.
  intros Hni Hf Hbad.
  unfold load_progress, bind, path_exists, try_, read_json, external.
  rewrite Hf. rewrite bool_decide_eq_true_2 by eauto.
  rewrite (Hni _).
  destruct (env_read env (now_ticks w)) eqn:Hr; simpl; try reflexivity.
  rewrite Hf. destruct Hbad as [-> | Hne]; [reflexivity | congruence].
Qed.

(** ** Snapshot store *)

Lemma load_subscriptions_returns filename env w :
  never_interrupted env ->
  exists v, load_subscriptions filename env w
            = (Ret v, extend w [EvRead (default SUBSCRIPTIONS_DATA_FILE filename)]).
Proof.
  intros Hni.
  unfold load_subscriptions, bind, try_, read_json, external.
  rewrite (Hni _).
  destruct (env_read env (now_ticks w)); simpl; [|by eauto..].
  destruct (fs w !! default SUBSCRIPTIONS_DATA_FILE filename) as [[doc|]|];
    simpl; [|by eauto..].
  destruct doc; simpl; try by eauto.
  destruct (assoc "subscriptions" d) as [v|]; simpl; [|by eauto].
  destruct v; simpl; by eauto.
Qed.

Lemma load_subscriptions_unreadable filename env w :
  never_interrupted env ->
  fs w !! default SUBSCRIPTIONS_DATA_FILE filename = None
  \/ fs w !! default SUBSCRIPTIONS_DATA_FILE filename = Some FCorrupt
  \/ env_read env (now_ticks w) <> DiskOk ->
  load_subscriptions filename env w
  = (Ret (PList []), extend w [EvRead (default SUBSCRIPTIONS_DATA_FILE filename)]).
Proof.
  intros Hni Hbad.
  unfold load_subscriptions, bind, try_, read_json, external.
  rewrite (Hni _).
  destruct (env_read env (now_ticks w)) eqn:Hr; simpl; try reflexivity.
  destruct Hbad as [Hf | [Hf | Hne]]; [| |congruence]; by rewrite Hf.
Qed.

Lemma save_subscriptions_written subscriptions filename env w :
  never_interrupted env ->
  env_write env (now_ticks w) = DiskOk ->
  let path := default SUBSCRIPTIONS_DATA_FILE filename in
  let doc :=
    PDict [("export_date", PStr (env_now env (now_ticks w)));
           ("total_subscriptions", PInt (Z.of_nat (length subscriptions)));
           ("subscriptions", PList (map subscription_data subscriptions))] in
  save_subscriptions subscriptions filename env w
  = (Ret true, {| fs := <[path := FJson doc]> (fs w);
                  trace := trace w ++ [EvWrite path doc] |}).
Proof.
  intros Hni Hw. simpl.
  unfold save_subscriptions, bind, try_, datetime_now, write_json, external.
  by rewrite (Hni _), Hw.
Qed.

Lemma save_subscriptions_failed subscriptions filename env w :
  never_interrupted env ->
  env_write env (now_ticks w) <> DiskOk ->
  exists w', save_subscriptions subscriptions filename env w = (Ret false, w').
Proof.
  intros Hni Hw.
  unfold save_subscriptions, bind, try_, datetime_now, write_json, external.
  rewrite (Hni _).
  destruct (env_write env (now_ticks w)); simpl; [congruence | by eauto..].
Qed.

(** ** Retry policy *)

Lemma is_already_subscribed_returns c env w :
  uninterrupted env ->
  exists b, is_already_subscribed c env w = (Ret b, extend w [EvApi (ReqList c)]).
Proof.
  intros [Hni Hq _].
  unfold is_already_subscribed, bind, try_, execute, external.
  rewrite (Hni _).
  destruct (env_api env (now_ticks w) (ReqList c)) eqn:Ha; simpl; [by eauto..|].
  exfalso. by eapply Hq.
Qed.

Lemma sleep_returns q env w :
  never_interrupted env ->
  sleep q env w = (Ret tt, extend w [EvSleep q]).
Proof. intros Hni. unfold sleep, external. by rewrite (Hni _). Qed.

(** An attempt that ends in an [HttpError] whose details can be read goes by
    the reason read. *)
Lemma subscribe_attempt_by_reason c m a env w d reason :
  env_interrupt env (now_ticks w) = false ->
  env_api env (now_ticks w) (ReqInsert c) = ApiHttpError d ->
  (forall env w, error_reason d env w = (Ret reason, w)) ->
  subscribe_attempt c m a env w
  = (if py_eq_str reason "subscriptionDuplicate" then ret (Some true)
     else if py_eq_str reason "channelNotFound" then ret (Some false)
     else if py_eq_str reason "quotaExceeded" then ret (Some false)
     else if py_eq_str reason "rateLimitExceeded"
             || py_eq_str reason "userRateLimitExceeded" then
       if a <? m - 1 then
         bind (sleep (inject_Z (2 ^ a * 5))) (fun _ => ret None)
       else ret (Some false)
     else
       if a <? m - 1 then
         bind (sleep (inject_Z ((a + 1) * 2))) (fun _ => ret None)
       else ret None) env (extend w [EvApi (ReqInsert c)]).
Proof.
  intros Hni Ha Hd.
  unfold subscribe_attempt, bind at 1, try_, execute, external.
  rewrite Hni, Ha. cbv beta iota. unfold bind at 1. rewrite Hd. reflexivity.
Qed.

(** An attempt that ends in an [HttpError] whose details cannot be read ends
    in what reading them raises. *)
Lemma subscribe_attempt_unreadable c m a env w d e :
  env_interrupt env (now_ticks w) = false ->
  env_api env (now_ticks w) (ReqInsert c) = ApiHttpError d ->
  (forall env w, error_reason d env w = (Raise e, w)) ->
  subscribe_attempt c m a env w = (Raise e, extend w [EvApi (ReqInsert c)]).
Proof.
  intros Hni Ha Hd.
  unfold subscribe_attempt, bind at 1, try_, execute, external.
  rewrite Hni, Ha. cbv beta iota. unfold bind at 1. rewrite Hd. reflexivity.
Qed.

Lemma subscribe_attempt_returns c m a env w :
  never_interrupted env ->
  insert_errors_readable env ->
  exists r d,
    subscribe_attempt c m a env w = (Ret r, extend w d)
    /\ Forall (retry_event c) d.
Proof.
  intros Hni Hread.
  assert (Hone : Forall (retry_event c) [EvApi (ReqInsert c)])
    by (repeat constructor).
  assert (Htwo : forall q, Forall (retry_event c) [EvApi (ReqInsert c); EvSleep q])
    by (intros; repeat constructor).
  destruct (env_api env (now_ticks w) (ReqInsert c)) eqn:Ha.
  - unfold subscribe_attempt, bind, try_, execute, external.
    rewrite (Hni _), Ha. simpl. by eauto.
  - destruct (Hread _ _ _ Ha) as [reason Hreason].
    rewrite (subscribe_attempt_by_reason c m a env w _ reason (Hni _) Ha Hreason).
    repeat (match goal with
            | |- context [if ?b then _ else _] => destruct b
            end; simpl);
      unfold bind, ret;
      rewrite ?sleep_returns, ?extend_extend by done;
      simpl; by eauto.
  - unfold subscribe_attempt, bind, try_, execute, external.
    rewrite (Hni _), Ha. simpl.
    destruct (a <? m - 1); simpl;
      rewrite ?sleep_returns, ?record_event_extend, ?extend_extend by done;
      simpl; by eauto.
Qed.

Lemma subscribe_loop_returns c m attempts env w :
  never_interrupted env ->
  insert_errors_readable env ->
  exists b d,
    subscribe_loop c m attempts env w = (Ret b, extend w d)
    /\ Forall (retry_event c) d.
Proof.
  intros Hni Hread. revert w.
  induction attempts as [|a rest IH]; intros w; simpl.
  - exists false, []. by rewrite extend_nil.
  - unfold bind.
    destruct (subscribe_attempt_returns c m a env w Hni Hread) as (r & d & -> & Hd).
    destruct r as [b|].
    + by eauto.
    + destruct (IH (extend w d)) as (b & d' & -> & Hd').
      exists b, (d ++ d'). rewrite extend_extend. split; [done|].
      by apply Forall_app.
Qed.

Lemma subscribe_to_channel_returns c title m env w :
  never_interrupted env ->
  insert_errors_readable env ->
  exists b d,
    subscribe_to_channel c title m env w = (Ret b, extend w d)
    /\ Forall (retry_event c) d.
Proof. apply subscribe_loop_returns. Qed.

(** ** Engine *)

Lemma process_item_returns self i sub s env w :
  uninterrupted env ->
  exists s' w' d,
    process_item self i sub s env w = (Ret s', w')
    /\ trace w' = trace w ++ d
    /\ item_block self i sub s d s'.
Proof.
  intros Hun. pose proof (no_interrupt _ Hun) as Hni.
  unfold process_item, bind.
  destruct (save_progress_returns env w i (channel_id sub) (total s) Hni)
    as (w1 & -> & Htr1 & _).
  destruct (is_already_subscribed_returns (channel_id sub) env w1 Hun) as (b & ->).
  destruct b.
  - eexists _, _, _. split; [reflexivity|]. split.
    + simpl. rewrite Htr1, <- app_assoc. reflexivity.
    + apply block_already.
  - destruct (subscribe_to_channel_returns (channel_id sub) (channel_title sub) 3
                env (extend w1 [EvApi (ReqList (channel_id sub))]) Hni
                (errors_readable _ Hun))
      as (ok & r & -> & Hr).
    rewrite sleep_returns by done.
    eexists _, _, _. split; [reflexivity|]. split.
    + simpl. rewrite Htr1, <- !app_assoc. reflexivity.
    + simpl. by apply block_attempted.
Qed.

Lemma import_loop_returns self start i items s env w :
  uninterrupted env ->
  exists s' w' d,
    import_loop self start i items s env w = (Ret s', w')
    /\ trace w' = trace w ++ d
    /\ blocks self start i items s d s'.
Proof.
  intros Hun. revert i s w.
  induction items as [|sub rest IH]; intros i s w; simpl.
  - exists s, w, []. rewrite app_nil_r. repeat split. constructor.
  - destruct (Z.ltb_spec i start) as [Hlt | Hge].
    + destruct (IH (i + 1) s w) as (s' & w' & d & E & Htr & Hb).
      exists s', w', d. repeat split; try done. by apply blocks_skip.
    + unfold bind.
      destruct (process_item_returns self i sub s env w Hun)
        as (s1 & w1 & d1 & -> & Htr1 & Hb1).
      destruct (IH (i + 1) s1 w1) as (s' & w' & d2 & E & Htr & Hb).
      exists s', w', (d1 ++ d2). split; [done|]. split.
      * by rewrite Htr, Htr1, <- app_assoc.
      * by eapply blocks_item.
Qed.

(** Nothing is done for a list that lies wholly below the start index. *)
Lemma import_loop_all_skipped self start i items s env w :
  i + Z.of_nat (length items) <= start ->
  import_loop self start i items s env w = (Ret s, w).
Proof.
  revert i. induction items as [|sub rest IH]; intros i Hle; simpl; [done|].
  simpl in Hle.
  destruct (Z.ltb_spec i start) as [Hlt | Hge]; [|lia].
  apply IH. lia.
Qed.

(** What a block and a sequence of blocks say of the statistics and of the
    visited indices. *)

Lemma item_block_stats self i sub s d s' :
  item_block self i sub s d s' ->
  total s' = total s /\ skipped s' = skipped s /\ tally s' = tally s + 1.
Proof.
  unfold tally. destruct 1 as [ts | ts r [|] Hr]; simpl; lia.
Qed.

Lemma visited_app d1 d2 : visited (d1 ++ d2) = visited d1 ++ visited d2.
Proof. apply omap_app. Qed.

Lemma visited_retry c r : Forall (retry_event c) r -> visited r = [].
Proof.
  induction 1 as [|ev r Hev _ IH]; [done|].
  destruct ev as [[]| | | |]; simpl in Hev; try done; exact IH.
Qed.

Lemma item_block_visited self i sub s d s' :
  item_block self i sub s d s' -> visited d = [i].
Proof.
  destruct 1 as [ts | ts r ok Hr].
  - reflexivity.
  - change (visited (EvWrite PROGRESS_FILE (progress_data i (channel_id sub) (total s) ts)
                    :: EvApi (ReqList (channel_id sub)) :: r ++ [EvSleep (wait_time self)]))
      with (i :: visited (r ++ [EvSleep (wait_time self)])).
    rewrite visited_app, (visited_retry _ _ Hr). reflexivity.
Qed.

Lemma blocks_stats self start i items s d s' :
  blocks self start i items s d s' ->
  total s' = total s /\ skipped s' = skipped s
  /\ tally s' = tally s + Z.of_nat (length (visited d))
  /\ visited d = filter (fun j => start <= j) (indices_from i items).
Proof.
  induction 1 as [i s | i sub rest s d s' Hlt _ IH
                 | i sub rest s d1 s1 d2 s' Hge Hb _ IH]; simpl.
  - repeat split; try done. lia.
  - destruct IH as (? & ? & ? & ?). repeat split; try done.
    rewrite filter_cons_False by lia. done.
  - destruct IH as (Ht & Hs & Hta & Hv).
    destruct (item_block_stats _ _ _ _ _ _ Hb) as (Ht1 & Hs1 & Hta1).
    rewrite visited_app, (item_block_visited _ _ _ _ _ _ Hb).
    rewrite filter_cons_True by lia.
    repeat split; try congruence.
    + simpl length. lia.
    + simpl. by rewrite Hv.
Qed.

Lemma filter_indices_all {A : Type} start i (l : list A) :
  start <= i ->
  filter (fun j => start <= j) (indices_from i l) = indices_from i l.
Proof.
  revert i. induction l as [|x l IH]; intros i Hle; simpl; [done|].
  rewrite filter_cons_True by lia. rewrite IH by lia. done.
Qed.

Lemma length_indices_from {A : Type} i (l : list A) :
  length (indices_from i l) = length l.
Proof. revert i. induction l as [|x l IH]; intros i; simpl; [done|]. by rewrite IH. Qed.

(** The fresh start: the record is removed, the loop starts at index 0. *)
Lemma resume_offset_fresh self s env w :
  resume_mode self = false ->
  never_interrupted env ->
  exists w1,
    resume_offset self s env w = (Ret (0, s), w1)
    /\ trace w1 = trace w
         ++ (if bool_decide (is_Some (fs w !! PROGRESS_FILE))
             then [EvRemove PROGRESS_FILE] else [])
    /\ (env_remove env (now_ticks w) = DiskOk -> fs w1 !! PROGRESS_FILE = None).
Proof.
  intros Hmode Hni. unfold resume_offset, bind. rewrite Hmode.
  destruct (clear_progress_returns env w Hni) as (w1 & -> & Htr & Hfs).
  by eauto.
Qed.

(** The resumed start from a record that holds an index. *)
Lemma resume_offset_record self s env w d k :
  resume_mode self = true ->
  never_interrupted env ->
  env_read env (now_ticks w) = DiskOk ->
  fs w !! PROGRESS_FILE = Some (FJson (PDict d)) ->
  assoc "last_processed_index" d = Some (PInt k) ->
  resume_offset self s env w
  = (Ret (k + 1, set_skipped s (k + 1)), extend w [EvRead PROGRESS_FILE]).
Proof.
  intros Hmode Hni Hr Hf Hk. unfold resume_offset, bind. rewrite Hmode.
  rewrite (load_progress_present env w (PDict d)) by done.
  destruct d as [|kv d']; [discriminate|].
  simpl truthy. cbv iota. unfold py_get, ret. rewrite Hk. reflexivity.
Qed.

Lemma resume_offset_no_record self s env w :
  resume_mode self = true ->
  fs w !! PROGRESS_FILE = None ->
  resume_offset self s env w = (Ret (0, s), w).
Proof.
  intros Hmode Hf. unfold resume_offset, bind. rewrite Hmode.
  by rewrite load_progress_absent.
Qed.

(** A run whose first part returns continues with the loop and the final
    [clear_progress]. *)
Lemma import_subscriptions_from self items env w start s1 w1 :
  uninterrupted env ->
  resume_offset self (initial_stats (length items)) env w = (Ret (start, s1), w1) ->
  exists s' w2 w' d,
    import_loop self start 0 items s1 env w1 = (Ret s', w2)
    /\ trace w2 = trace w1 ++ d
    /\ blocks self start 0 items s1 d s'
    /\ clear_progress env w2 = (Ret tt, w')
    /\ import_subscriptions self items env w = (Ret s', w')
    /\ trace w' = trace w2
         ++ (if bool_decide (is_Some (fs w2 !! PROGRESS_FILE))
             then [EvRemove PROGRESS_FILE] else [])
    /\ (env_remove env (now_ticks w2) = DiskOk -> fs w' !! PROGRESS_FILE = None).
Proof.
  intros Hun Hoff.
  destruct (import_loop_returns self start 0 items s1 env w1 Hun)
    as (s' & w2 & d & Hloop & Htr & Hb).
  destruct (clear_progress_returns env w2 (no_interrupt _ Hun))
    as (w' & Hclear & Htr' & Hfs).
  exists s', w2, w', d. repeat split; try done.
  unfold import_subscriptions, bind. fold (initial_stats (length items)).
  by rewrite Hoff, Hloop, Hclear.
Qed.

(** * The claims *)

(** C1. A run of [import_subscriptions] with [resume_mode] false that nothing
    interrupts returns statistics with [total] the length of the list and
    [successful + failed + already_subscribed = total]; after the loop it
    calls [clear_progress], whatever the items came to, so that no progress
    record is left (the removal itself working; see C9 for its failure).
    Holds for the empty list as well. *)
Theorem complete_run_tally_and_clear self items env w :
  resume_mode self = false ->
  uninterrupted env ->
  exists stats w1 w2 w',
    import_subscriptions self items env w = (Ret stats, w')
    /\ total stats = Z.of_nat (length items)
    /\ successful stats + failed stats + already_subscribed stats = total stats
    /\ resume_offset self (initial_stats (length items)) env w
       = (Ret (0, initial_stats (length items)), w1)
    /\ import_loop self 0 0 items (initial_stats (length items)) env w1 = (Ret stats, w2)
    /\ clear_progress env w2 = (Ret tt, w')
    /\ (removes_ok env -> fs w' !! PROGRESS_FILE = None).
Proof.
  intros Hmode Hun.
  destruct (resume_offset_fresh self (initial_stats (length items)) env w Hmode
              (no_interrupt _ Hun)) as (w1 & Hoff & _ & _).
  destruct (import_subscriptions_from self items env w _ _ _ Hun Hoff)
    as (stats & w2 & w' & d & Hloop & _ & Hb & Hclear & Hrun & _ & Hfs).
  destruct (blocks_stats _ _ _ _ _ _ _ Hb) as (Ht & _ & Hta & Hv).
  exists stats, w1, w2, w'.
  rewrite filter_indices_all in Hv by lia.
  rewrite Hv, length_indices_from in Hta. unfold tally in Hta. simpl in Hta, Ht.
  repeat split; try done; try lia.
  intros Hok. apply Hfs, Hok.
Qed.

Lemma complete_run_tally_and_clear_witness :
  resume_mode fresh_tool = false
  /\ uninterrupted (calm_env api_accepts)
  /\ removes_ok (calm_env api_accepts)
  /\ exists stats w',
       import_subscriptions fresh_tool [item "A"; item "B"; item "C"]
         (calm_env api_accepts) (world_with_record 1) = (Ret stats, w')
       /\ successful stats + failed stats + already_subscribed stats = 3
       /\ fs w' !! PROGRESS_FILE = None.
Proof.
  assert (Hun : uninterrupted (calm_env api_accepts))
    by (split; [intros t; reflexivity | intros t c; discriminate
               | intros t c d; discriminate]).
  assert (Hrm : removes_ok (calm_env api_accepts)) by (intros t; reflexivity).
  split; [reflexivity|]. split; [exact Hun|]. split; [exact Hrm|].
  destruct (complete_run_tally_and_clear fresh_tool [item "A"; item "B"; item "C"]
              (calm_env api_accepts) (world_with_record 1) eq_refl Hun)
    as (stats & w1 & w2 & w' & Hrun & Ht & Hsum & _ & _ & _ & Hfs).
  exists stats, w'. split; [exact Hrun|]. split; [|exact (Hfs Hrm)].
  rewrite Hsum, Ht. reflexivity.
Defined.

(** C3. Resume rule.  In a run with [resume_mode] true that finds a progress
    record (a readable document holding [last_processed_index = k]), the start
    index is [k + 1] and the returned statistics have [skipped = k + 1]; when
    there is no record, the start index is 0 and [skipped] is 0. *)
Theorem resume_offset_rule self items env w :
  resume_mode self = true ->
  uninterrupted env ->
  (forall d k,
      fs w !! PROGRESS_FILE = Some (FJson (PDict d)) ->
      assoc "last_processed_index" d = Some (PInt k) ->
      env_read env (now_ticks w) = DiskOk ->
      exists s1 w1 stats w',
        resume_offset self (initial_stats (length items)) env w = (Ret (k + 1, s1), w1)
        /\ import_subscriptions self items env w = (Ret stats, w')
        /\ skipped stats = k + 1)
  /\ (fs w !! PROGRESS_FILE = None ->
      exists s1 w1 stats w',
        resume_offset self (initial_stats (length items)) env w = (Ret (0, s1), w1)
        /\ import_subscriptions self items env w = (Ret stats, w')
        /\ skipped stats = 0).
Proof.
  intros Hmode Hun. split.
  - intros d k Hf Hk Hr.
    pose proof (resume_offset_record self (initial_stats (length items)) env w d k
                  Hmode (no_interrupt _ Hun) Hr Hf Hk) as Hoff.
    destruct (import_subscriptions_from self items env w _ _ _ Hun Hoff)
      as (stats & w2 & w' & dd & _ & _ & Hb & _ & Hrun & _).
    destruct (blocks_stats _ _ _ _ _ _ _ Hb) as (_ & Hs & _).
    by eauto 10.
  - intros Hf.
    pose proof (resume_offset_no_record self (initial_stats (length items)) env w
                  Hmode Hf) as Hoff.
    destruct (import_subscriptions_from self items env w _ _ _ Hun Hoff)
      as (stats & w2 & w' & dd & _ & _ & Hb & _ & Hrun & _).
    destruct (blocks_stats _ _ _ _ _ _ _ Hb) as (_ & Hs & _).
    by eauto 10.
Qed.

Lemma resume_offset_rule_witness :
  resume_mode resuming_tool = true
  /\ uninterrupted (calm_env api_accepts)
  /\ (exists stats w',
        import_subscriptions resuming_tool [item "A"; item "B"; item "C"]
          (calm_env api_accepts) (world_with_record 0) = (Ret stats, w')
        /\ skipped stats = 1)
  /\ (exists stats w',
        import_subscriptions resuming_tool [item "A"; item "B"; item "C"]
          (calm_env api_accepts) empty_world = (Ret stats, w')
        /\ skipped stats = 0).
Proof.
  assert (Hun : uninterrupted (calm_env api_accepts))
    by (split; [intros t; reflexivity | intros t c; discriminate
               | intros t c d; discriminate]).
  split; [reflexivity|]. split; [exact Hun|]. split.
  - destruct (resume_offset_rule resuming_tool [item "A"; item "B"; item "C"]
                (calm_env api_accepts) (world_with_record 0) eq_refl Hun)
      as [Hrec _].
    destruct (Hrec _ 0 eq_refl eq_refl eq_refl) as (s1 & w1 & stats & w' & _ & Hrun & Hs).
    exists stats, w'. split; [exact Hrun | exact Hs].
  - destruct (resume_offset_rule resuming_tool [item "A"; item "B"; item "C"]
                (calm_env api_accepts) empty_world eq_refl Hun)
      as [_ Hnone].
    destruct (Hnone eq_refl) as (s1 & w1 & stats & w' & _ & Hrun & Hs).
    exists stats, w'. split; [exact Hrun | exact Hs].
Defined.

(** C4. A run with [resume_mode] false that finds a stale progress record
    first removes it (the first action of the run, before the loop), then
    visits every index from 0 on, in order, and returns [skipped = 0]: the
    stale record has no say in what the run does. *)
Theorem fresh_run_ignores_stale_record self items env w stale :
  resume_mode self = false ->
  fs w !! PROGRESS_FILE = Some stale ->
  uninterrupted env ->
  exists w1 stats w' d,
    resume_offset self (initial_stats (length items)) env w
    = (Ret (0, initial_stats (length items)), w1)
    /\ trace w1 = trace w ++ [EvRemove PROGRESS_FILE]
    /\ (removes_ok env -> fs w1 !! PROGRESS_FILE = None)
    /\ import_subscriptions self items env w = (Ret stats, w')
    /\ skipped stats = 0
    /\ trace w' = trace w1 ++ d
    /\ visited d = indices_from 0 items
    /\ tally stats = total stats.
Proof.
  intros Hmode Hstale Hun.
  destruct (resume_offset_fresh self (initial_stats (length items)) env w Hmode
              (no_interrupt _ Hun)) as (w1 & Hoff & Htr1 & Hfs1).
  rewrite bool_decide_eq_true_2 in Htr1 by eauto.
  destruct (import_subscriptions_from self items env w _ _ _ Hun Hoff)
    as (stats & w2 & w' & d & _ & Htr2 & Hb & _ & Hrun & Htr' & _).
  destruct (blocks_stats _ _ _ _ _ _ _ Hb) as (Ht & Hs & Hta & Hv).
  rewrite filter_indices_all in Hv by lia.
  exists w1, stats, w',
    (d ++ (if bool_decide (is_Some (fs w2 !! PROGRESS_FILE))
           then [EvRemove PROGRESS_FILE] else [])).
  repeat split; try done.
  - intros Hok. apply Hfs1, Hok.
  - by rewrite Htr', Htr2, <- app_assoc.
  - rewrite visited_app, Hv. case_bool_decide; simpl; by rewrite app_nil_r.
  - rewrite Hta, Hv, length_indices_from, Ht. unfold tally. simpl. lia.
Qed.

Lemma fresh_run_ignores_stale_record_witness :
  resume_mode fresh_tool = false
  /\ fs (world_with_record 1) !! PROGRESS_FILE
     = Some (FJson (progress_data 1 "A" 2 "2024-05-01T11:00:00"))
  /\ uninterrupted (calm_env api_accepts)
  /\ exists stats w' d,
       import_subscriptions fresh_tool [item "A"; item "B"; item "C"]
         (calm_env api_accepts) (world_with_record 1) = (Ret stats, w')
       /\ skipped stats = 0
       /\ trace w' = [EvRemove PROGRESS_FILE] ++ d
       /\ visited d = [0; 1; 2].
Proof.
  assert (Hun : uninterrupted (calm_env api_accepts))
    by (split; [intros t; reflexivity | intros t c; discriminate
               | intros t c d; discriminate]).
  split; [reflexivity|]. split; [reflexivity|]. split; [exact Hun|].
  destruct (fresh_run_ignores_stale_record fresh_tool [item "A"; item "B"; item "C"]
              (calm_env api_accepts) (world_with_record 1) _ eq_refl eq_refl Hun)
    as (w1 & stats & w' & d & _ & Htr1 & _ & Hrun & Hs & Htr & Hv & _).
  exists stats, w', d. split; [exact Hrun|]. split; [exact Hs|].
  split; [|exact Hv].
  rewrite Htr, Htr1. reflexivity.
Defined.

(** C10. The record is not checked against the list.  In a run with
    [resume_mode] true whose record holds [last_processed_index = k] with
    [k >= len(items) - 1], the loop processes no item: the only actions of the
    run are the read of the record and its removal; the statistics come back
    with [skipped = k + 1] (which may exceed [total]) and
    [successful = failed = already_subscribed = 0]; the record is removed. *)
Theorem resume_past_the_end self items env w d k :
  resume_mode self = true ->
  uninterrupted env ->
  env_read env (now_ticks w) = DiskOk ->
  fs w !! PROGRESS_FILE = Some (FJson (PDict d)) ->
  assoc "last_processed_index" d = Some (PInt k) ->
  Z.of_nat (length items) - 1 <= k ->
  exists w',
    import_subscriptions self items env w
    = (Ret {| total := Z.of_nat (length items); successful := 0; failed := 0;
              already_subscribed := 0; skipped := k + 1 |}, w')
    /\ trace w' = trace w ++ [EvRead PROGRESS_FILE; EvRemove PROGRESS_FILE]
    /\ (removes_ok env -> fs w' !! PROGRESS_FILE = None).
Proof.
  intros Hmode Hun Hr Hf Hk Hlen.
  pose proof (no_interrupt _ Hun) as Hni.
  destruct (clear_progress_returns env (extend w [EvRead PROGRESS_FILE]) Hni)
    as (w' & Hclear & Htr & Hfs).
  exists w'. split; [|split].
  - unfold import_subscriptions, bind. fold (initial_stats (length items)).
    rewrite (resume_offset_record self _ env w d k) by done.
    rewrite import_loop_all_skipped by lia.
    by rewrite Hclear.
  - rewrite Htr. simpl. rewrite Hf, bool_decide_eq_true_2 by eauto.
    by rewrite <- app_assoc.
  - intros Hok. apply Hfs, Hok.
Qed.

Lemma resume_past_the_end_witness :
  resume_mode resuming_tool = true
  /\ uninterrupted (calm_env api_accepts)
  /\ removes_ok (calm_env api_accepts)
  /\ Z.of_nat (length [item "A"; item "B"]) - 1 <= 5
  /\ exists w',
       import_subscriptions resuming_tool [item "A"; item "B"]
         (calm_env api_accepts) (world_with_record 5)
       = (Ret {| total := 2; successful := 0; failed := 0;
                 already_subscribed := 0; skipped := 6 |}, w')
       /\ trace w' = [EvRead PROGRESS_FILE; EvRemove PROGRESS_FILE]
       /\ fs w' !! PROGRESS_FILE = None.
Proof.
  assert (Hun : uninterrupted (calm_env api_accepts))
    by (split; [intros t; reflexivity | intros t c; discriminate
               | intros t c d; discriminate]).
  assert (Hrm : removes_ok (calm_env api_accepts)) by (intros t; reflexivity).
  assert (Hlen : Z.of_nat (length [item "A"; item "B"]) - 1 <= 5) by (simpl; lia).
  split; [reflexivity|]. split; [exact Hun|]. split; [exact Hrm|].
  split; [exact Hlen|].
  destruct (resume_past_the_end resuming_tool [item "A"; item "B"]
              (calm_env api_accepts) (world_with_record 5) _ 5
              eq_refl Hun eq_refl eq_refl eq_refl Hlen)
    as (w' & Hrun & Htr & Hfs).
  exists w'. split; [exact Hrun|]. split; [exact Htr | exact (Hfs Hrm)].
Defined.

(** ** One attempt of the retry policy, by outcome of the mutation call *)

Lemma subscribe_attempt_returned c m a env w n :
  env_interrupt env (now_ticks w) = false ->
  env_api env (now_ticks w) (ReqInsert c) = ApiReturns n ->
  subscribe_attempt c m a env w = (Ret (Some true), extend w [EvApi (ReqInsert c)]).
Proof.
  intros Hni Ha.
  unfold subscribe_attempt, bind, try_, execute, external.
  rewrite Hni, Ha. reflexivity.
Qed.

Lemma details_reason_read d v env w :
  details_reason d = Some v -> error_reason d env w = (Ret v, w).
Proof.
  unfold details_reason, error_reason.
  destruct d as [|b|z|s|l|e].
  - simpl. by intros [= <-].
  - destruct b; simpl; [done | by intros [= <-]].
  - simpl. destruct (z =? 0); simpl; [by intros [= <-] | done].
  - simpl. destruct (String.eqb s ""); simpl; [by intros [= <-] | done].
  - destruct l as [|x l]; [simpl; by intros [= <-]|].
    destruct x; simpl; try done. by intros [= <-].
  - destruct e as [|x e]; simpl; [by intros [= <-] | done].
Qed.

(** The details that can be read are those in which [details_reason] finds
    something. *)
Lemma readable_details d : readable d <-> is_Some (details_reason d).
Proof.
  split.
  - intros [v Hv]. specialize (Hv (calm_env api_accepts) empty_world).
    unfold details_reason. unfold error_reason in Hv.
    destruct d as [|b|z|s|l|e]; try by eauto.
    + destruct b; [discriminate Hv | by eauto].
    + simpl in *. destruct (z =? 0); [by eauto | discriminate Hv].
    + simpl in *. destruct (String.eqb s ""); [by eauto|].
      simpl in Hv. destruct s; discriminate Hv.
    + destruct l as [|x l]; [by eauto|].
      destruct x; try discriminate Hv; by eauto.
    + destruct e as [|x e]; [by eauto | discriminate Hv].
  - intros [v Hv]. exists v. intros env w. by apply details_reason_read.
Qed.

Lemma insert_reason_inv o r :
  insert_reason o = Some r ->
  exists d, o = ApiHttpError d
            /\ forall env w, error_reason d env w = (Ret (PStr r), w).
Proof.
  destruct o as [n|d|]; simpl; try done.
  destruct (details_reason d) as [v|] eqn:E; [|done].
  destruct v; try done. intros [= <-].
  exists d. split; [done|]. intros env w. by apply details_reason_read.
Qed.

Lemma subscribe_attempt_rate_limited c m a env w :
  never_interrupted env ->
  is_rate_limited (env_api env (now_ticks w) (ReqInsert c)) ->
  subscribe_attempt c m a env w
  = if a <? m - 1
    then (Ret None, extend w [EvApi (ReqInsert c); EvSleep (inject_Z (2 ^ a * 5))])
    else (Ret (Some false), extend w [EvApi (ReqInsert c)]).
Proof.
  intros Hni [Hr | Hr];
    apply insert_reason_inv in Hr as (d & Ha & Hd);
    rewrite (subscribe_attempt_by_reason c m a env w d _ (Hni _) Ha Hd);
    cbn [py_eq_str]; eval_string_tests;
    destruct (a <? m - 1); try reflexivity;
    unfold bind; rewrite sleep_returns by done; by rewrite extend_extend.
Qed.

Lemma subscribe_attempt_permanent c m a env w r :
  env_interrupt env (now_ticks w) = false ->
  insert_reason (env_api env (now_ticks w) (ReqInsert c)) = Some r ->
  r = "channelNotFound" \/ r = "quotaExceeded" ->
  subscribe_attempt c m a env w = (Ret (Some false), extend w [EvApi (ReqInsert c)]).
Proof.
  intros Hni Hr Hwhich.
  apply insert_reason_inv in Hr as (d & Ha & Hd).
  rewrite (subscribe_attempt_by_reason c m a env w d _ Hni Ha Hd).
  by destruct Hwhich as [-> | ->].
Qed.

Lemma subscribe_attempt_duplicate c m a env w :
  env_interrupt env (now_ticks w) = false ->
  insert_reason (env_api env (now_ticks w) (ReqInsert c)) = Some "subscriptionDuplicate" ->
  subscribe_attempt c m a env w = (Ret (Some true), extend w [EvApi (ReqInsert c)]).
Proof.
  intros Hni Hr.
  apply insert_reason_inv in Hr as (d & Ha & Hd).
  by rewrite (subscribe_attempt_by_reason c m a env w d _ Hni Ha Hd).
Qed.

Lemma range_pos m : 0 < m -> exists rest, range m = 0 :: rest.
Proof.
  intros Hm. unfold range.
  destruct (Z.to_nat m) as [|n] eqn:E; [lia|].
  simpl. by eauto.
Qed.

(** C5 (as the code has it).  With the default bound [max_retries = 3], an
    item whose mutation is rate-limited at every attempt is attempted 3 times
    with waits of 5s and 10s between the attempts, and [subscribe_to_channel]
    returns false; the wait after the attempt of index [a], when one follows,
    is [5 * 2^a]; an item whose mutation answers channelNotFound is attempted
    once, without any wait, and the result is false. *)
Theorem rate_limit_backoff_default c title env w :
  never_interrupted env ->
  ((forall t, is_rate_limited (env_api env t (ReqInsert c))) ->
   subscribe_to_channel c title 3 env w
   = (Ret false,
      extend w [EvApi (ReqInsert c); EvSleep (inject_Z 5);
                EvApi (ReqInsert c); EvSleep (inject_Z 10);
                EvApi (ReqInsert c)]))
  /\ (forall m a,
        is_rate_limited (env_api env (now_ticks w) (ReqInsert c)) ->
        a < m - 1 ->
        subscribe_attempt c m a env w
        = (Ret None, extend w [EvApi (ReqInsert c); EvSleep (inject_Z (5 * 2 ^ a))]))
  /\ (insert_reason (env_api env (now_ticks w) (ReqInsert c)) = Some "channelNotFound" ->
      subscribe_to_channel c title 3 env w
      = (Ret false, extend w [EvApi (ReqInsert c)])).
Proof.
  intros Hni. split; [|split].
  - intros Hrl.
    unfold subscribe_to_channel. change (range 3) with [0; 1; 2].
    cbn [subscribe_loop]. unfold bind.
    rewrite subscribe_attempt_rate_limited by done.
    change (0 <? 3 - 1) with true. cbv beta iota.
    rewrite subscribe_attempt_rate_limited by done.
    change (1 <? 3 - 1) with true. cbv beta iota.
    rewrite subscribe_attempt_rate_limited by done.
    change (2 <? 3 - 1) with false. cbv beta iota.
    by rewrite !extend_extend.
  - intros m a Hrl Ha.
    rewrite subscribe_attempt_rate_limited by done.
    destruct (Z.ltb_spec a (m - 1)); [|lia].
    by rewrite (Z.mul_comm 5).
  - intros Hnf.
    unfold subscribe_to_channel. change (range 3) with [0; 1; 2].
    cbn [subscribe_loop]. unfold bind.
    by rewrite (subscribe_attempt_permanent c 3 0 env w "channelNotFound") by eauto.
Qed.

Lemma rate_limit_backoff_default_witness :
  never_interrupted (calm_env api_rate_limited)
  /\ (forall t, is_rate_limited (env_api (calm_env api_rate_limited) t (ReqInsert "A")))
  /\ subscribe_to_channel "A" "Channel A" 3 (calm_env api_rate_limited) empty_world
     = (Ret false,
        extend empty_world
          [EvApi (ReqInsert "A"); EvSleep (inject_Z 5);
           EvApi (ReqInsert "A"); EvSleep (inject_Z 10);
           EvApi (ReqInsert "A")])
  /\ subscribe_to_channel "A" "Channel A" 3 (calm_env api_not_found) empty_world
     = (Ret false, extend empty_world [EvApi (ReqInsert "A")]).
Proof.
  assert (Hni : forall api, never_interrupted (calm_env api))
    by (intros api t; reflexivity).
  assert (Hrl : forall t, is_rate_limited
                            (env_api (calm_env api_rate_limited) t (ReqInsert "A")))
    by (intros t; left; reflexivity).
  split; [exact (Hni _)|]. split; [exact Hrl|]. split.
  - exact (proj1 (rate_limit_backoff_default "A" "Channel A"
                    (calm_env api_rate_limited) empty_world (Hni _)) Hrl).
  - exact (proj2 (proj2 (rate_limit_backoff_default "A" "Channel A"
                           (calm_env api_not_found) empty_world (Hni _))) eq_refl).
Defined.

(** C5, as the claim words it, fails: at the default bound the item is
    attempted 3 times, not 4, and the waits are 5s and 10s; no wait of 20s
    occurs. *)
Lemma rate_limited_default_three_attempts :
  let r := subscribe_to_channel "A" "Channel A" 3 (calm_env api_rate_limited)
             empty_world in
  fst r = Ret false
  /\ attempted (trace (snd r)) = ["A"; "A"; "A"]
  /\ sleeps (trace (snd r)) = [inject_Z 5; inject_Z 10]
  /\ ~ (length (attempted (trace (snd r))) = 4%nat
        /\ sleeps (trace (snd r)) = [inject_Z 5; inject_Z 10; inject_Z 20]).
Proof.
  vm_compute. repeat split; try reflexivity.
  intros [H _]. discriminate H.
Qed.

(** C6 (as the code has it).  For an item the pre-check finds subscribed, the
    turn of the loop ends right after the query ([continue]): no sleep.  For
    an item whose mutation is attempted, whether [subscribe_to_channel]
    returns true or false, the last action of the turn is the sleep of
    [wait_time]. *)
Theorem inter_item_delay_after_attempt self i sub s env w :
  uninterrupted env ->
  exists w1 (b : bool),
    save_progress i (channel_id sub) (total s) env w = (Ret tt, w1)
    /\ is_already_subscribed (channel_id sub) env w1
       = (Ret b, extend w1 [EvApi (ReqList (channel_id sub))])
    /\ if b then
         process_item self i sub s env w
         = (Ret (incr_already_subscribed s),
            extend w1 [EvApi (ReqList (channel_id sub))])
       else
         exists (ok : bool) r,
           subscribe_to_channel (channel_id sub) (channel_title sub) 3 env
             (extend w1 [EvApi (ReqList (channel_id sub))])
           = (Ret ok, extend w1 (EvApi (ReqList (channel_id sub)) :: r))
           /\ Forall (retry_event (channel_id sub)) r
           /\ process_item self i sub s env w
              = (Ret (if ok then incr_successful s else incr_failed s),
                 extend w1 (EvApi (ReqList (channel_id sub)) :: r
                              ++ [EvSleep (wait_time self)])).
Proof.
  intros Hun. pose proof (no_interrupt _ Hun) as Hni.
  destruct (save_progress_returns env w i (channel_id sub) (total s) Hni)
    as (w1 & Hsave & _ & _).
  destruct (is_already_subscribed_returns (channel_id sub) env w1 Hun) as (b & Hb).
  exists w1, b. split; [done|]. split; [done|].
  unfold process_item, bind. rewrite Hsave, Hb.
  destruct b; [done|].
  destruct (subscribe_to_channel_returns (channel_id sub) (channel_title sub) 3
              env (extend w1 [EvApi (ReqList (channel_id sub))]) Hni
              (errors_readable _ Hun))
    as (ok & r & Hsub & Hr).
  exists ok, r. rewrite Hsub, extend_extend. split; [done|]. split; [done|].
  rewrite sleep_returns by done. by rewrite extend_extend.
Qed.

Lemma inter_item_delay_after_attempt_witness :
  uninterrupted (calm_env api_accepts)
  /\ uninterrupted (calm_env api_subscribed)
  /\ (exists w',
        process_item fresh_tool 0 (item "A") (initial_stats 1)
          (calm_env api_accepts) empty_world
        = (Ret (incr_successful (initial_stats 1)), w')
        /\ last (trace w') = Some (EvSleep (wait_time fresh_tool)))
  /\ (exists w',
        process_item fresh_tool 0 (item "A") (initial_stats 1)
          (calm_env api_subscribed) empty_world
        = (Ret (incr_already_subscribed (initial_stats 1)), w')
        /\ sleeps (trace w') = []).
Proof.
  assert (Hun : forall api, (forall c, api (ReqList c) <> ApiException) ->
                            (forall c d, api (ReqInsert c) <> ApiHttpError d) ->
                            uninterrupted (calm_env api))
    by (intros api Hq Hi; split;
        [intros t; reflexivity | intros t c; apply Hq
        | intros t c d Hd; by destruct (Hi c d)]).
  assert (H1 : uninterrupted (calm_env api_accepts))
    by (apply Hun; [intros c | intros c d]; discriminate).
  assert (H2 : uninterrupted (calm_env api_subscribed))
    by (apply Hun; [intros c | intros c d]; discriminate).
  split; [exact H1|]. split; [exact H2|]. split.
  - destruct (inter_item_delay_after_attempt fresh_tool 0 (item "A") (initial_stats 1)
                (calm_env api_accepts) empty_world H1)
      as (w1 & b & Hsave & Hb & Hitem).
    injection Hsave as <-. injection Hb as <-.
    destruct Hitem as (ok & r & Hsub & _ & Hitem).
    injection Hsub as <- <-.
    eexists. split; [exact Hitem | reflexivity].
  - destruct (inter_item_delay_after_attempt fresh_tool 0 (item "A") (initial_stats 1)
                (calm_env api_subscribed) empty_world H2)
      as (w1 & b & Hsave & Hb & Hitem).
    injection Hsave as <-. injection Hb as <-.
    eexists. split; [exact Hitem | reflexivity].
Defined.

(** C6, as the claim words it, fails: a complete run over one item that the
    pre-check finds subscribed counts the item and never sleeps. *)
Lemma no_delay_after_already_subscribed :
  let r := import_subscriptions fresh_tool [item "A"] (calm_env api_subscribed)
             empty_world in
  fst r = Ret {| total := 1; successful := 0; failed := 0;
                 already_subscribed := 1; skipped := 0 |}
  /\ visited (trace (snd r)) = [0]
  /\ sleeps (trace (snd r)) = []
  /\ ~ In (wait_time fresh_tool) (sleeps (trace (snd r))).
Proof.
  vm_compute. repeat split; try reflexivity. intros [].
Qed.

Lemma error_reason_of_text s env w :
  s <> "" ->
  error_reason (PStr s) env w = (Raise (OtherException "AttributeError"), w).
Proof. destruct s; [done | reflexivity]. Qed.

(** C7 (as the code has it).  A call that returns, or that fails with
    subscriptionDuplicate, ends the policy at once with true; one that fails
    with channelNotFound or quotaExceeded ends it at once with false: in both
    cases the attempt is the last action, no wait and no further attempt
    follows, at whichever attempt of the loop it comes.  When the details of
    every [HttpError] of the mutation call can be read (a list whose first
    element is a dict, or an empty value), [subscribe_to_channel] resolves to
    a boolean.  It does not for every outcome: when the details of the
    [HttpError] are a non-empty text, which is what the client library stores
    for an error body that is not JSON, [e.error_details[0]] is a one-letter
    string, [.get] on it raises AttributeError inside the [except] clause,
    and the exception leaves [subscribe_to_channel] right after the first
    call, whatever the bound [max_retries >= 1]. *)
Theorem retry_policy_outcomes c title m env w :
  never_interrupted env ->
  let o := env_api env (now_ticks w) (ReqInsert c) in
  (forall a rest,
     (exists n, o = ApiReturns n)
     \/ insert_reason o = Some "subscriptionDuplicate" ->
     subscribe_loop c m (a :: rest) env w
     = (Ret true, extend w [EvApi (ReqInsert c)]))
  /\ (forall a rest,
        insert_reason o = Some "channelNotFound"
        \/ insert_reason o = Some "quotaExceeded" ->
        subscribe_loop c m (a :: rest) env w
        = (Ret false, extend w [EvApi (ReqInsert c)]))
  /\ (insert_errors_readable env ->
      exists (b : bool) w', subscribe_to_channel c title m env w = (Ret b, w'))
  /\ (0 < m ->
      ((exists n, o = ApiReturns n)
       \/ insert_reason o = Some "subscriptionDuplicate" ->
       subscribe_to_channel c title m env w
       = (Ret true, extend w [EvApi (ReqInsert c)]))
      /\ (insert_reason o = Some "channelNotFound"
          \/ insert_reason o = Some "quotaExceeded" ->
          subscribe_to_channel c title m env w
          = (Ret false, extend w [EvApi (ReqInsert c)]))
      /\ (forall s,
            s <> "" ->
            o = ApiHttpError (PStr s) ->
            subscribe_to_channel c title m env w
            = (Raise (OtherException "AttributeError"),
               extend w [EvApi (ReqInsert c)]))).
Proof.
  intros Hni o.
  assert (Htrue : forall a rest,
             (exists n, o = ApiReturns n)
             \/ insert_reason o = Some "subscriptionDuplicate" ->
             subscribe_loop c m (a :: rest) env w
             = (Ret true, extend w [EvApi (ReqInsert c)])).
  { intros a rest Ho. cbn [subscribe_loop]. unfold bind.
    destruct Ho as [[n Hn] | Hdup].
    - by rewrite (subscribe_attempt_returned c m a env w n (Hni _) Hn).
    - by rewrite (subscribe_attempt_duplicate c m a env w (Hni _) Hdup). }
  assert (Hfalse : forall a rest,
             insert_reason o = Some "channelNotFound"
             \/ insert_reason o = Some "quotaExceeded" ->
             subscribe_loop c m (a :: rest) env w
             = (Ret false, extend w [EvApi (ReqInsert c)])).
  { intros a rest Ho. cbn [subscribe_loop]. unfold bind.
    destruct Ho as [Hr | Hr];
      by rewrite (subscribe_attempt_permanent c m a env w _ (Hni _) Hr) by eauto. }
  split; [exact Htrue | split; [exact Hfalse | split]].
  - intros Hread.
    destruct (subscribe_to_channel_returns c title m env w Hni Hread)
      as (b & d & E & _).
    by eauto.
  - intros Hm. destruct (range_pos m Hm) as (rest & Hrange).
    unfold subscribe_to_channel. rewrite Hrange.
    split; [apply Htrue | split; [apply Hfalse|]].
    intros s Hs Ho. cbn [subscribe_loop]. unfold bind.
    by rewrite (subscribe_attempt_unreadable c m 0 env w (PStr s)
                  (OtherException "AttributeError") (Hni _) Ho)
      by (intros env' w'; by apply error_reason_of_text).
Qed.

Lemma retry_policy_outcomes_witness :
  never_interrupted (calm_env api_plain_error)
  /\ never_interrupted (calm_env api_not_found)
  /\ 0 < 3
  /\ "Forbidden" <> ""
  /\ env_api (calm_env api_plain_error) (now_ticks empty_world) (ReqInsert "A")
     = ApiHttpError (PStr "Forbidden")
  /\ subscribe_to_channel "A" "Channel A" 3 (calm_env api_plain_error) empty_world
     = (Raise (OtherException "AttributeError"),
        extend empty_world [EvApi (ReqInsert "A")])
  /\ subscribe_to_channel "A" "Channel A" 3 (calm_env api_not_found) empty_world
     = (Ret false, extend empty_world [EvApi (ReqInsert "A")]).
Proof.
  assert (Hni : forall api, never_interrupted (calm_env api))
    by (intros api t; reflexivity).
  assert (Hm : 0 < 3) by lia.
  assert (Hs : "Forbidden" <> "") by discriminate.
  split; [exact (Hni _)|]. split; [exact (Hni _)|]. split; [exact Hm|].
  split; [exact Hs|]. split; [reflexivity|]. split.
  - destruct (retry_policy_outcomes "A" "Channel A" 3 (calm_env api_plain_error)
                empty_world (Hni _)) as (_ & _ & _ & Hfirst).
    exact (proj2 (proj2 (Hfirst Hm)) "Forbidden" Hs eq_refl).
  - destruct (retry_policy_outcomes "A" "Channel A" 3 (calm_env api_not_found)
                empty_world (Hni _)) as (_ & _ & _ & Hfirst).
    apply (proj1 (proj2 (Hfirst Hm))). left. reflexivity.
Defined.

(** ** Snapshot documents *)

Lemma subscription_data_inj s s' :
  subscription_data s = subscription_data s' -> s = s'.
Proof.
  destruct s, s'. unfold subscription_data. simpl. intros H.
  by simplify_eq.
Qed.

Lemma map_subscription_data_inj l l' :
  map subscription_data l = map subscription_data l' -> l = l'.
Proof.
  revert l'. induction l as [|s l IH]; intros [|s' l'] H; try done.
  change (subscription_data s :: map subscription_data l
          = subscription_data s' :: map subscription_data l') in H.
  apply (f_equal head) in H as Hs. apply (f_equal tail) in H as Hl.
  simpl in Hs, Hl. f_equal; [apply subscription_data_inj; congruence | by apply IH].
Qed.

(** C8. Round trip of the snapshot store.  [save_subscriptions] (the write
    working) returns true and leaves a document whose [total_subscriptions] is
    the length of the list it was given and whose [subscriptions] are the
    dicts of the records, in order; [load_subscriptions] on that file (the
    read working) returns exactly these dicts, from which the records can be
    told with all their fields. *)
Theorem snapshot_round_trip subscriptions filename env w :
  never_interrupted env ->
  env_write env (now_ticks w) = DiskOk ->
  let path := default SUBSCRIPTIONS_DATA_FILE filename in
  exists w1 export_date,
    save_subscriptions subscriptions filename env w = (Ret true, w1)
    /\ fs w1 !! path
       = Some (FJson (PDict
           [("export_date", PStr export_date);
            ("total_subscriptions", PInt (Z.of_nat (length subscriptions)));
            ("subscriptions", PList (map subscription_data subscriptions))]))
    /\ (forall env' w',
          never_interrupted env' ->
          env_read env' (now_ticks w') = DiskOk ->
          fs w' !! path = fs w1 !! path ->
          load_subscriptions filename env' w'
          = (Ret (PList (map subscription_data subscriptions)),
             extend w' [EvRead path]))
    /\ (forall l,
          PList (map subscription_data l) = PList (map subscription_data subscriptions) ->
          l = subscriptions).
Proof.
  intros Hni Hw path.
  pose proof (save_subscriptions_written subscriptions filename env w Hni Hw) as Hsave.
  cbv zeta in Hsave. fold path in Hsave.
  eexists _, (env_now env (now_ticks w)). split; [exact Hsave|].
  split; [simpl; apply lookup_insert_eq|]. split.
  - intros env' w' Hni' Hr Hsame. simpl in Hsame.
    rewrite lookup_insert_eq in Hsame.
    unfold load_subscriptions, bind, try_, read_json, external.
    fold path. rewrite (Hni' _), Hr. simpl. rewrite Hsame. reflexivity.
  - intros l Hl. injection Hl as Hl. by apply map_subscription_data_inj.
Qed.

Lemma snapshot_round_trip_witness :
  never_interrupted (calm_env api_accepts)
  /\ env_write (calm_env api_accepts) (now_ticks empty_world) = DiskOk
  /\ exists w1,
       save_subscriptions [item "A"; item "B"; item "C"] None
         (calm_env api_accepts) empty_world = (Ret true, w1)
       /\ load_subscriptions None (calm_env api_accepts) (restart w1)
          = (Ret (PList [subscription_data (item "A"); subscription_data (item "B");
                         subscription_data (item "C")]),
             extend (restart w1) [EvRead SUBSCRIPTIONS_DATA_FILE]).
Proof.
  assert (Hni : never_interrupted (calm_env api_accepts)) by (intros t; reflexivity).
  split; [exact Hni|]. split; [reflexivity|].
  destruct (snapshot_round_trip [item "A"; item "B"; item "C"] None
              (calm_env api_accepts) empty_world Hni eq_refl)
    as (w1 & export_date & Hsave & _ & Hload & _).
  exists w1. split; [exact Hsave|].
  exact (Hload (calm_env api_accepts) (restart w1) Hni eq_refl eq_refl).
Defined.

(** C9. No failure of the disk leaves the ledger or the snapshot store.
    Whatever the disk does, [save_progress] and [clear_progress] return and
    the turn of the loop goes on to its end; [load_progress] returns, and
    returns the empty dict when the record is missing, is not a JSON document
    or cannot be read; [load_subscriptions] returns, and returns the empty
    list when the file is missing, is not a JSON document or cannot be
    read. *)
Theorem store_failures_contained env w :
  never_interrupted env ->
  (forall i c tot, exists w', save_progress i c tot env w = (Ret tt, w'))
  /\ (exists w', clear_progress env w = (Ret tt, w'))
  /\ (uninterrupted env ->
      forall self i sub s, exists s' w', process_item self i sub s env w = (Ret s', w'))
  /\ (exists doc w', load_progress env w = (Ret doc, w'))
  /\ (fs w !! PROGRESS_FILE = None -> load_progress env w = (Ret (PDict []), w))
  /\ (forall f,
        fs w !! PROGRESS_FILE = Some f ->
        f = FCorrupt \/ env_read env (now_ticks w) <> DiskOk ->
        load_progress env w = (Ret (PDict []), extend w [EvRead PROGRESS_FILE]))
  /\ (forall filename,
        exists v, load_subscriptions filename env w
                  = (Ret v, extend w [EvRead (default SUBSCRIPTIONS_DATA_FILE filename)]))
  /\ (forall filename,
        fs w !! default SUBSCRIPTIONS_DATA_FILE filename = None
        \/ fs w !! default SUBSCRIPTIONS_DATA_FILE filename = Some FCorrupt
        \/ env_read env (now_ticks w) <> DiskOk ->
        load_subscriptions filename env w
        = (Ret (PList []), extend w [EvRead (default SUBSCRIPTIONS_DATA_FILE filename)])).
Proof.
  intros Hni. repeat split.
  - intros i c tot.
    destruct (save_progress_returns env w i c tot Hni) as (w' & E & _). by eauto.
  - destruct (clear_progress_returns env w Hni) as (w' & E & _). by eauto.
  - intros Hun self i sub s.
    destruct (process_item_returns self i sub s env w Hun) as (s' & w' & d & E & _).
    by eauto.
  - by apply load_progress_returns.
  - by apply load_progress_absent.
  - intros f Hf Hbad. by eapply load_progress_unreadable.
  - intros filename. by apply load_subscriptions_returns.
  - intros filename Hbad. by apply load_subscriptions_unreadable.
Qed.

Lemma store_failures_contained_witness :
  never_interrupted faulty_disk_env
  /\ (exists w', save_progress 0 "A" 2 faulty_disk_env (world_with_record 1) = (Ret tt, w'))
  /\ (exists w', clear_progress faulty_disk_env (world_with_record 1) = (Ret tt, w'))
  /\ load_progress faulty_disk_env (world_with_record 1)
     = (Ret (PDict []), extend (world_with_record 1) [EvRead PROGRESS_FILE])
  /\ load_subscriptions None faulty_disk_env empty_world
     = (Ret (PList []), extend empty_world [EvRead SUBSCRIPTIONS_DATA_FILE]).
Proof.
  assert (Hni : never_interrupted faulty_disk_env) by (intros t; reflexivity).
  destruct (store_failures_contained faulty_disk_env (world_with_record 1) Hni)
    as (Hsave & Hclear & _ & _ & _ & Hload & _ & _).
  destruct (store_failures_contained faulty_disk_env empty_world Hni)
    as (_ & _ & _ & _ & _ & _ & _ & Hsubs).
  split; [exact Hni|]. split; [exact (Hsave 0 "A" 2)|]. split; [exact Hclear|].
  split.
  - apply (Hload _ eq_refl). right. discriminate.
  - apply (Hsubs None). left. reflexivity.
Defined.

(** ** Resuming *)

(** A resumed run visits exactly the indices above the recorded one, in
    order: none of them is skipped, and the recorded index itself is not
    visited again. *)
Lemma resumed_run_visits self items env w d k :
  resume_mode self = true ->
  uninterrupted env ->
  env_read env (now_ticks w) = DiskOk ->
  fs w !! PROGRESS_FILE = Some (FJson (PDict d)) ->
  assoc "last_processed_index" d = Some (PInt k) ->
  exists stats w' tr,
    import_subscriptions self items env w = (Ret stats, w')
    /\ trace w' = trace w ++ tr
    /\ visited tr = filter (fun j => k + 1 <= j) (indices_from 0 items).
Proof.
  intros Hmode Hun Hr Hf Hk.
  pose proof (resume_offset_record self (initial_stats (length items)) env w d k
                Hmode (no_interrupt _ Hun) Hr Hf Hk) as Hoff.
  destruct (import_subscriptions_from self items env w _ _ _ Hun Hoff)
    as (stats & w2 & w' & dd & _ & Htr2 & Hb & _ & Hrun & Htr' & _).
  destruct (blocks_stats _ _ _ _ _ _ _ Hb) as (_ & _ & _ & Hv).
  exists stats, w',
    ([EvRead PROGRESS_FILE] ++ dd
       ++ (if bool_decide (is_Some (fs w2 !! PROGRESS_FILE))
           then [EvRemove PROGRESS_FILE] else [])).
  split; [done|]. split.
  - rewrite Htr', Htr2. simpl. by rewrite <- !app_assoc.
  - rewrite !visited_app, Hv. case_bool_decide; simpl; by rewrite app_nil_r.
Qed.

(** C2, at the failing input.  The progress write of an item does come before
    its pre-check and its mutation (see [item_block]), but the record it
    leaves names the item under way as processed.  A fresh run over [A; B]
    interrupted during the turn of index 0, after the progress write and
    before the pre-check, leaves the record of index 0; the resumed run then
    starts at index 1: it reports [skipped = 1], visits index 1 only, and no
    mutation is ever attempted for A, in either run. *)
Theorem resume_skips_interrupted_item :
  let items := [item "A"; item "B"] in
  let first := import_subscriptions fresh_tool items interrupted_env empty_world in
  let second := import_subscriptions resuming_tool items (calm_env api_accepts)
                  (restart (snd first)) in
  fst first = Raise KeyboardInterrupt
  /\ trace (snd first)
     = [EvWrite PROGRESS_FILE (progress_data 0 "A" 2 "2024-05-01T12:00:00")]
  /\ fs (snd first) !! PROGRESS_FILE
     = Some (FJson (progress_data 0 "A" 2 "2024-05-01T12:00:00"))
  /\ fst second = Ret {| total := 2; successful := 1; failed := 0;
                         already_subscribed := 0; skipped := 1 |}
  /\ visited (trace (snd second)) = [1]
  /\ attempted (trace (snd first) ++ trace (snd second)) = ["B"].
Proof. vm_compute. repeat split; reflexivity. Qed.

(** * Further properties of the code *)

(** ** Retry policy *)

Lemma subscribe_attempt_transient c m a env w :
  never_interrupted env ->
  is_transient (env_api env (now_ticks w) (ReqInsert c)) ->
  subscribe_attempt c m a env w
  = if a <? m - 1
    then (Ret None, extend w [EvApi (ReqInsert c); EvSleep (inject_Z ((a + 1) * 2))])
    else (Ret None, extend w [EvApi (ReqInsert c)]).
Proof.
  intros Hni [Hexc | (r & Hr & H1 & H2 & H3 & H4 & H5)].
  - unfold subscribe_attempt, bind at 1, try_, execute, external.
    rewrite (Hni _), Hexc. cbv beta iota.
    destruct (a <? m - 1); [|reflexivity].
    unfold bind. rewrite sleep_returns by done.
    by rewrite record_event_extend, extend_extend.
  - apply insert_reason_inv in Hr as (d & Ha & Hd).
    rewrite (subscribe_attempt_by_reason c m a env w d _ (Hni _) Ha Hd).
    cbn [py_eq_str].
    rewrite !(proj2 (String.eqb_neq _ _)) by done. cbn [orb]. cbv iota.
    destruct (a <? m - 1); [|reflexivity].
    unfold bind. rewrite sleep_returns by done. by rewrite extend_extend.
Qed.

(** Reading the details of an error touches nothing: it gives a reason or
    raises, the same in every state. *)
Lemma error_reason_pure d :
  (exists v, forall env w, error_reason d env w = (Ret v, w))
  \/ (exists e, forall env w, error_reason d env w = (Raise e, w)).
Proof.
  unfold error_reason.
  destruct (truthy d) eqn:Ht; [|left; by eexists].
  destruct d as [|b|z|s|l|e]; try discriminate Ht;
    try (right; by eexists).
  - destruct s as [|a s]; [discriminate Ht|]. right. by eexists.
  - destruct l as [|x l]; [discriminate Ht|].
    destruct x; try (right; by eexists). left. by eexists.
Qed.

(** The four ways an attempt can go: it settles the item, it waits and goes
    on (another attempt is left), it was the last one, or the details of its
    error could not be read. *)
Lemma subscribe_attempt_shape c m a env w :
  never_interrupted env ->
  exists r d,
    subscribe_attempt c m a env w = (r, extend w d)
    /\ ((exists b, r = Ret (Some b) /\ d = [EvApi (ReqInsert c)])
        \/ (r = Ret None /\ a < m - 1
            /\ exists q, is_backoff a q /\ d = [EvApi (ReqInsert c); EvSleep q])
        \/ (r = Ret None /\ m - 1 <= a /\ d = [EvApi (ReqInsert c)])
        \/ (exists e, r = Raise e /\ d = [EvApi (ReqInsert c)]
                      /\ ~ insert_errors_readable env)).
Proof.
  intros Hni.
  destruct (env_api env (now_ticks w) (ReqInsert c)) as [n|dd|] eqn:Ha.
  - rewrite (subscribe_attempt_returned c m a env w n (Hni _) Ha).
    eexists _, _. split; [reflexivity|]. left. by eauto.
  - destruct (error_reason_pure dd) as [[v Hv] | [e He]].
    + rewrite (subscribe_attempt_by_reason c m a env w dd v (Hni _) Ha Hv).
      repeat match goal with
             | |- context [if py_eq_str ?x ?y then _ else _] =>
                 destruct (py_eq_str x y)
             | |- context [if ?x || ?y then _ else _] => destruct (x || y)
             end;
        try (eexists _, _; split; [reflexivity|]; left; by eauto);
        destruct (Z.ltb_spec a (m - 1));
        unfold bind, ret;
        rewrite ?sleep_returns, ?extend_extend by done;
        simpl; eexists _, _; (split; [reflexivity|]);
        unfold is_backoff; by eauto 10.
    + rewrite (subscribe_attempt_unreadable c m a env w dd e (Hni _) Ha He).
      eexists _, _. split; [reflexivity|]. do 3 right.
      exists e. split; [done|]. split; [done|].
      intros Hread. destruct (Hread _ _ _ Ha) as [v Hv].
      specialize (Hv env w). rewrite He in Hv. discriminate Hv.
  - unfold subscribe_attempt, bind, try_, execute, external.
    rewrite (Hni _), Ha. cbv beta iota.
    destruct (Z.ltb_spec a (m - 1));
      rewrite ?sleep_returns, ?record_event_extend, ?extend_extend by done;
      simpl; eexists _, _; (split; [reflexivity|]);
      unfold is_backoff; by eauto 10.
Qed.

Lemma subscribe_loop_shape c m env k :
  never_interrupted env ->
  forall a w,
    k = 0%nat \/ Z.of_nat (a + k) = m ->
    exists r d,
      subscribe_loop c m (map Z.of_nat (seq a k)) env w = (r, extend w d)
      /\ ((k = 0%nat /\ d = [] /\ r = Ret false)
          \/ (exists waits,
                d = calls_and_waits c waits
                /\ (length waits < k)%nat
                /\ forall i q, waits !! i = Some q ->
                               is_backoff (Z.of_nat (a + i)) q))
      /\ (insert_errors_readable env -> exists b : bool, r = Ret b).
Proof.
  intros Hni. induction k as [|k IH]; intros a w Hm.
  - exists (Ret false), []. simpl. rewrite extend_nil.
    split; [done|]. split; [by left | by eauto].
  - destruct Hm as [Hm | Hm]; [discriminate|].
    simpl. unfold bind.
    destruct (subscribe_attempt_shape c m (Z.of_nat a) env w Hni)
      as (r & d1 & -> & [(b & -> & ->)
                        | [(-> & Hlt & q & Hq & ->)
                          | [(-> & Hge & ->) | (e & -> & -> & Hbad)]]]).
    + exists (Ret b), [EvApi (ReqInsert c)].
      split; [done|]. split; [|by eauto].
      right. exists []. split; [done|]. split; [simpl; lia | done].
    + destruct (IH (S a) (extend w [EvApi (ReqInsert c); EvSleep q]))
        as (r & d2 & -> & Hshape & Hres); [right; lia|].
      destruct Hshape as [(Hk & _) | (waits & -> & Hlen & Hwaits)]; [lia|].
      exists r, (calls_and_waits c (q :: waits)).
      rewrite extend_extend. split; [done|]. split; [|done].
      right. exists (q :: waits). split; [done|]. split; [simpl; lia|].
      intros [|i] q' Hi; simpl in Hi.
      * injection Hi as <-. by rewrite Nat.add_0_r.
      * replace (a + S i)%nat with (S a + i)%nat by lia. by apply Hwaits.
    + assert (k = 0%nat) by lia. subst k.
      exists (Ret false), [EvApi (ReqInsert c)].
      split; [done|]. split; [|by eauto].
      right. exists []. split; [done|]. split; [simpl; lia | done].
    + exists (Raise e), [EvApi (ReqInsert c)].
      split; [done|]. split; [|done].
      right. exists []. split; [done|]. split; [simpl; lia | done].
Qed.

(** X1. For whatever the mutation calls do, the actions of
    [subscribe_to_channel] are: none, with the result false, when
    [max_retries <= 0]; otherwise call, wait, call, ..., call, every call
    for the channel it was given, with one wait between two consecutive calls
    and none before the first call nor after the last, fewer waits than
    [max_retries] (so at most [max_retries] calls), the wait of rank [i]
    being one of the two backoffs of the attempt of index [i].  The result
    is a boolean when the details of every [HttpError] can be read. *)
Theorem retry_policy_calls_and_waits c title m env w :
  never_interrupted env ->
  exists r d,
    subscribe_to_channel c title m env w = (r, extend w d)
    /\ ((m <= 0 /\ d = [] /\ r = Ret false)
        \/ (exists waits,
              d = calls_and_waits c waits
              /\ (length waits < Z.to_nat m)%nat
              /\ forall i q, waits !! i = Some q -> is_backoff (Z.of_nat i) q))
    /\ (insert_errors_readable env -> exists b : bool, r = Ret b).
Proof.
  intros Hni.
  destruct (subscribe_loop_shape c m env (Z.to_nat m) Hni 0%nat w)
    as (r & d & Hrun & Hshape & Hres); [lia|].
  exists r, d. split; [exact Hrun|]. split; [|exact Hres].
  destruct Hshape as [(Hk & -> & ->) | Hwaits]; [left | by right].
  split; [lia | done].
Qed.

Lemma retry_policy_calls_and_waits_witness :
  never_interrupted (calm_env api_unreachable)
  /\ exists r waits,
       subscribe_to_channel "A" "Channel A" 3 (calm_env api_unreachable) empty_world
       = (r, extend empty_world (calls_and_waits "A" waits))
       /\ (length waits < 3)%nat.
Proof.
  assert (Hni : never_interrupted (calm_env api_unreachable)) by (intros t; reflexivity).
  split; [exact Hni|].
  destruct (retry_policy_calls_and_waits "A" "Channel A" 3 (calm_env api_unreachable)
              empty_world Hni) as (r & d & Hrun & Hshape & _).
  destruct Hshape as [(Hm & _) | (waits & -> & Hlen & _)]; [lia|].
  exists r, waits. split; [exact Hrun | exact Hlen].
Defined.

(** X2. With the default bound, an item whose mutation meets a passing trouble
    at every attempt (an exception other than [HttpError], or an [HttpError]
    of unknown reason) is attempted 3 times with waits of 2s and 4s, and the
    result is false. *)
Theorem transient_backoff_default c title env w :
  never_interrupted env ->
  (forall t, is_transient (env_api env t (ReqInsert c))) ->
  subscribe_to_channel c title 3 env w
  = (Ret false,
     extend w [EvApi (ReqInsert c); EvSleep (inject_Z 2);
               EvApi (ReqInsert c); EvSleep (inject_Z 4);
               EvApi (ReqInsert c)]).
Proof.
  intros Hni Htr.
  unfold subscribe_to_channel. change (range 3) with [0; 1; 2].
  cbn [subscribe_loop]. unfold bind.
  rewrite subscribe_attempt_transient by done.
  change (0 <? 3 - 1) with true. cbv beta iota.
  rewrite subscribe_attempt_transient by done.
  change (1 <? 3 - 1) with true. cbv beta iota.
  rewrite subscribe_attempt_transient by done.
  change (2 <? 3 - 1) with false. cbv beta iota.
  by rewrite !extend_extend.
Qed.

Lemma transient_backoff_default_witness :
  never_interrupted (calm_env api_unreachable)
  /\ (forall t, is_transient (env_api (calm_env api_unreachable) t (ReqInsert "A")))
  /\ subscribe_to_channel "A" "Channel A" 3 (calm_env api_unreachable) empty_world
     = (Ret false,
        extend empty_world
          [EvApi (ReqInsert "A"); EvSleep (inject_Z 2);
           EvApi (ReqInsert "A"); EvSleep (inject_Z 4);
           EvApi (ReqInsert "A")]).
Proof.
  assert (Hni : never_interrupted (calm_env api_unreachable)) by (intros t; reflexivity).
  assert (Htr : forall t, is_transient
                            (env_api (calm_env api_unreachable) t (ReqInsert "A")))
    by (intros t; left; reflexivity).
  split; [exact Hni|]. split; [exact Htr|].
  exact (transient_backoff_default "A" "Channel A" (calm_env api_unreachable)
           empty_world Hni Htr).
Defined.

(** ** Ledger and resume *)

Lemma length_filter_indices {A : Type} start i (l : list A) :
  i <= start -> start <= i + Z.of_nat (length l) ->
  Z.of_nat (length (filter (fun j => start <= j) (indices_from i l)))
  = i + Z.of_nat (length l) - start.
Proof.
  revert i. induction l as [|x l IH]; intros i Hlo Hhi; simpl in *.
  - lia.
  - destruct (decide (start <= i)) as [Hle | Hnle].
    + rewrite filter_cons_True by done.
      rewrite filter_indices_all by lia.
      simpl. rewrite length_indices_from. lia.
    + rewrite filter_cons_False by done. rewrite IH by lia. lia.
Qed.

(** The run from the start index and the statistics that [resume_offset]
    hands to the loop. *)
Lemma run_from_offset self items env w start s1 w1 :
  uninterrupted env ->
  resume_offset self (initial_stats (length items)) env w = (Ret (start, s1), w1) ->
  exists stats w' tr,
    import_subscriptions self items env w = (Ret stats, w')
    /\ trace w' = trace w1 ++ tr
    /\ visited tr = filter (fun j => start <= j) (indices_from 0 items)
    /\ total stats = total s1
    /\ skipped stats = skipped s1
    /\ tally stats = tally s1 + Z.of_nat (length (visited tr)).
Proof.
  intros Hun Hoff.
  destruct (import_subscriptions_from self items env w _ _ _ Hun Hoff)
    as (stats & w2 & w' & d & _ & Htr2 & Hb & _ & Hrun & Htr' & _).
  destruct (blocks_stats _ _ _ _ _ _ _ Hb) as (Ht & Hs & Hta & Hv).
  exists stats, w',
    (d ++ (if bool_decide (is_Some (fs w2 !! PROGRESS_FILE))
           then [EvRemove PROGRESS_FILE] else [])).
  assert (Hvis : visited (d ++ (if bool_decide (is_Some (fs w2 !! PROGRESS_FILE))
                                then [EvRemove PROGRESS_FILE] else []))
                 = visited d).
  { rewrite visited_app. case_bool_decide; simpl; by rewrite app_nil_r. }
  rewrite Hvis. repeat split; try done.
  by rewrite Htr', Htr2, <- app_assoc.
Qed.

(** X3. What [save_progress] has written, [load_progress] returns: after a
    write that worked, a later process that can read the file gets the record
    of the index, and a run in resume mode starts right after it. *)
Theorem progress_save_then_load i c tot env w :
  never_interrupted env ->
  env_write env (now_ticks w) = DiskOk ->
  exists w1,
    save_progress i c tot env w = (Ret tt, w1)
    /\ forall env' w',
         never_interrupted env' ->
         env_read env' (now_ticks w') = DiskOk ->
         fs w' !! PROGRESS_FILE = fs w1 !! PROGRESS_FILE ->
         load_progress env' w'
         = (Ret (progress_data i c tot (env_now env (now_ticks w))),
            extend w' [EvRead PROGRESS_FILE])
         /\ forall self s,
              resume_mode self = true ->
              resume_offset self s env' w'
              = (Ret (i + 1, set_skipped s (i + 1)), extend w' [EvRead PROGRESS_FILE]).
Proof.
  intros Hni Hw.
  destruct (save_progress_returns env w i c tot Hni) as (w1 & Hsave & _ & Hfs).
  exists w1. split; [done|].
  intros env' w' Hni' Hr Hsame. rewrite (Hfs Hw) in Hsame. split.
  - by apply load_progress_present.
  - intros self s Hmode.
    by apply (resume_offset_record self s env' w' _ i Hmode Hni' Hr Hsame).
Qed.

Lemma progress_save_then_load_witness :
  never_interrupted (calm_env api_accepts)
  /\ env_write (calm_env api_accepts) (now_ticks empty_world) = DiskOk
  /\ exists w1,
       save_progress 4 "E" 9 (calm_env api_accepts) empty_world = (Ret tt, w1)
       /\ load_progress (calm_env api_accepts) (restart w1)
          = (Ret (progress_data 4 "E" 9 "2024-05-01T12:00:00"),
             extend (restart w1) [EvRead PROGRESS_FILE])
       /\ resume_offset resuming_tool (initial_stats 9) (calm_env api_accepts) (restart w1)
          = (Ret (5, set_skipped (initial_stats 9) 5),
             extend (restart w1) [EvRead PROGRESS_FILE]).
Proof.
  assert (Hni : never_interrupted (calm_env api_accepts)) by (intros t; reflexivity).
  split; [exact Hni|]. split; [reflexivity|].
  destruct (progress_save_then_load 4 "E" 9 (calm_env api_accepts) empty_world
              Hni eq_refl) as (w1 & Hsave & Hload).
  exists w1. split; [exact Hsave|].
  destruct (Hload (calm_env api_accepts) (restart w1) Hni eq_refl eq_refl)
    as (Hl & Hoff).
  split; [exact Hl | exact (Hoff resuming_tool (initial_stats 9) eq_refl)].
Defined.

(** X4. After a [clear_progress] whose removal worked there is no progress
    left to find: whatever the outside, [load_progress] returns the empty dict
    without touching the disk, a second [clear_progress] does nothing, and a
    run in resume mode starts at index 0. *)
Theorem cleared_ledger_is_empty env w :
  never_interrupted env ->
  env_remove env (now_ticks w) = DiskOk ->
  exists w1,
    clear_progress env w = (Ret tt, w1)
    /\ forall env',
         load_progress env' w1 = (Ret (PDict []), w1)
         /\ clear_progress env' w1 = (Ret tt, w1)
         /\ forall self s,
              resume_mode self = true ->
              resume_offset self s env' w1 = (Ret (0, s), w1).
Proof.
  intros Hni Hrm.
  destruct (clear_progress_returns env w Hni) as (w1 & Hclear & _ & Hfs).
  exists w1. split; [done|]. intros env'.
  pose proof (Hfs Hrm) as Hnone. split; [|split].
  - by apply load_progress_absent.
  - unfold clear_progress, try_, bind, path_exists. rewrite Hnone.
    rewrite bool_decide_eq_false_2; [done|]. intros [? ?]; discriminate.
  - intros self s Hmode. by apply resume_offset_no_record.
Qed.

Lemma cleared_ledger_is_empty_witness :
  never_interrupted (calm_env api_accepts)
  /\ env_remove (calm_env api_accepts) (now_ticks (world_with_record 3)) = DiskOk
  /\ exists w1,
       clear_progress (calm_env api_accepts) (world_with_record 3) = (Ret tt, w1)
       /\ load_progress interrupted_env w1 = (Ret (PDict []), w1)
       /\ clear_progress faulty_disk_env w1 = (Ret tt, w1).
Proof.
  assert (Hni : never_interrupted (calm_env api_accepts)) by (intros t; reflexivity).
  split; [exact Hni|]. split; [reflexivity|].
  destruct (cleared_ledger_is_empty (calm_env api_accepts) (world_with_record 3)
              Hni eq_refl) as (w1 & Hclear & Hafter).
  exists w1. split; [exact Hclear|].
  split; [exact (proj1 (Hafter interrupted_env))
         | exact (proj1 (proj2 (Hafter faulty_disk_env)))].
Defined.

(** X5. A record that cannot be used counts as no progress.  When the file of
    the ledger is not a JSON document, or cannot be read, a run in resume mode
    starts at index 0: it visits every item and returns [skipped = 0]. *)
Theorem resume_with_unreadable_record self items env w f :
  resume_mode self = true ->
  uninterrupted env ->
  fs w !! PROGRESS_FILE = Some f ->
  f = FCorrupt \/ env_read env (now_ticks w) <> DiskOk ->
  exists stats w' tr,
    import_subscriptions self items env w = (Ret stats, w')
    /\ trace w' = trace w ++ EvRead PROGRESS_FILE :: tr
    /\ visited tr = indices_from 0 items
    /\ skipped stats = 0
    /\ tally stats = total stats.
Proof.
  intros Hmode Hun Hf Hbad.
  assert (Hoff : resume_offset self (initial_stats (length items)) env w
                 = (Ret (0, initial_stats (length items)),
                    extend w [EvRead PROGRESS_FILE])).
  { unfold resume_offset, bind. rewrite Hmode.
    by rewrite (load_progress_unreadable env w f (no_interrupt _ Hun) Hf Hbad). }
  destruct (run_from_offset self items env w _ _ _ Hun Hoff)
    as (stats & w' & tr & Hrun & Htr & Hv & Ht & Hs & Hta).
  rewrite filter_indices_all in Hv by lia.
  exists stats, w', tr. repeat split; try done.
  - rewrite Htr. simpl. by rewrite <- app_assoc.
  - rewrite Hta, Hv, length_indices_from, Ht. unfold tally. simpl. lia.
Qed.

Lemma resume_with_unreadable_record_witness :
  resume_mode resuming_tool = true
  /\ uninterrupted (calm_env api_accepts)
  /\ fs (world_with_ledger FCorrupt) !! PROGRESS_FILE = Some FCorrupt
  /\ exists stats w' tr,
       import_subscriptions resuming_tool [item "A"; item "B"]
         (calm_env api_accepts) (world_with_ledger FCorrupt) = (Ret stats, w')
       /\ trace w' = EvRead PROGRESS_FILE :: tr
       /\ visited tr = [0; 1]
       /\ skipped stats = 0.
Proof.
  assert (Hun : uninterrupted (calm_env api_accepts))
    by (split; [intros t; reflexivity | intros t c; discriminate
               | intros t c d; discriminate]).
  split; [reflexivity|]. split; [exact Hun|]. split; [reflexivity|].
  destruct (resume_with_unreadable_record resuming_tool [item "A"; item "B"]
              (calm_env api_accepts) (world_with_ledger FCorrupt) FCorrupt
              eq_refl Hun eq_refl (or_introl eq_refl))
    as (stats & w' & tr & Hrun & Htr & Hv & Hs & _).
  exists stats, w', tr. split; [exact Hrun|]. split; [exact Htr|].
  split; [exact Hv | exact Hs].
Defined.

(** X6. The record is used as it is read.  In resume mode, a ledger that holds
    a JSON document that is true as a condition but is no dict makes
    [import_subscriptions] raise [AttributeError]; one that is a dict whose
    [last_processed_index] is [None], a string, a list or a dict makes it
    raise [TypeError].  In both cases the run ends right after reading the
    record: no item is processed and the record stays. *)
Theorem resume_with_foreign_record self items env w doc :
  resume_mode self = true ->
  never_interrupted env ->
  env_read env (now_ticks w) = DiskOk ->
  fs w !! PROGRESS_FILE = Some (FJson doc) ->
  (truthy doc = true ->
   (forall d, doc <> PDict d) ->
   import_subscriptions self items env w
   = (Raise (OtherException "AttributeError"), extend w [EvRead PROGRESS_FILE]))
  /\ (forall d v,
        doc = PDict d ->
        assoc "last_processed_index" d = Some v ->
        v = PNone \/ (exists s, v = PStr s) \/ (exists l, v = PList l)
        \/ (exists e, v = PDict e) ->
        import_subscriptions self items env w
        = (Raise (OtherException "TypeError"), extend w [EvRead PROGRESS_FILE])).
Proof.
  intros Hmode Hni Hr Hf. split.
  - intros Htrue Hnodict.
    unfold import_subscriptions, bind at 1 2, resume_offset, bind at 1.
    rewrite Hmode, (load_progress_present env w doc) by done.
    rewrite Htrue.
    destruct doc; try reflexivity. by destruct (Hnodict d).
  - intros d v -> Hv Hkind.
    unfold import_subscriptions, bind at 1 2, resume_offset, bind at 1.
    rewrite Hmode, (load_progress_present env w (PDict d)) by done.
    destruct d as [|kv d']; [discriminate|].
    cbn [truthy]. cbv iota. unfold bind, py_get, ret. rewrite Hv.
    by destruct Hkind as [-> | [[s ->] | [[l ->] | [e ->]]]].
Qed.

Lemma resume_with_foreign_record_witness :
  resume_mode resuming_tool = true
  /\ never_interrupted (calm_env api_accepts)
  /\ import_subscriptions resuming_tool [item "A"; item "B"] (calm_env api_accepts)
       (world_with_ledger (FJson (PList [PInt 1])))
     = (Raise (OtherException "AttributeError"),
        extend (world_with_ledger (FJson (PList [PInt 1]))) [EvRead PROGRESS_FILE])
  /\ import_subscriptions resuming_tool [item "A"; item "B"] (calm_env api_accepts)
       (world_with_ledger (FJson (PDict [("last_processed_index", PStr "1")])))
     = (Raise (OtherException "TypeError"),
        extend (world_with_ledger (FJson (PDict [("last_processed_index", PStr "1")])))
          [EvRead PROGRESS_FILE]).
Proof.
  assert (Hni : never_interrupted (calm_env api_accepts)) by (intros t; reflexivity).
  split; [reflexivity|]. split; [exact Hni|]. split.
  - apply (proj1 (resume_with_foreign_record resuming_tool [item "A"; item "B"]
                    (calm_env api_accepts) (world_with_ledger (FJson (PList [PInt 1])))
                    (PList [PInt 1]) eq_refl Hni eq_refl eq_refl)).
    + reflexivity.
    + intros d; discriminate.
  - apply (proj2 (resume_with_foreign_record resuming_tool [item "A"; item "B"]
                    (calm_env api_accepts)
                    (world_with_ledger (FJson (PDict [("last_processed_index", PStr "1")])))
                    _ eq_refl Hni eq_refl eq_refl)
             [("last_processed_index", PStr "1")] (PStr "1") eq_refl eq_refl).
    right. left. exists "1". reflexivity.
Defined.

Lemma filter_indices_tail {A : Type} (x : A) l :
  filter (fun j => 1 <= j) (indices_from 0 (x :: l)) = indices_from 1 l.
Proof.
  simpl. rewrite filter_cons_False by lia. by apply filter_indices_all.
Qed.

(** X7. The default of the engine for a record without index.  In resume mode,
    a record that is a non-empty dict without [last_processed_index] is read
    as index 0 done: the run starts at index 1, returns [skipped = 1] and never
    visits the first item. *)
Theorem resume_record_without_index self first rest env w d :
  resume_mode self = true ->
  uninterrupted env ->
  env_read env (now_ticks w) = DiskOk ->
  fs w !! PROGRESS_FILE = Some (FJson (PDict d)) ->
  d <> [] ->
  assoc "last_processed_index" d = None ->
  exists stats w' tr,
    import_subscriptions self (first :: rest) env w = (Ret stats, w')
    /\ trace w' = trace w ++ EvRead PROGRESS_FILE :: tr
    /\ visited tr = indices_from 1 rest
    /\ skipped stats = 1
    /\ tally stats = Z.of_nat (length rest).
Proof.
  intros Hmode Hun Hr Hf Hd Hk.
  assert (Hoff : resume_offset self (initial_stats (length (first :: rest))) env w
                 = (Ret (1, set_skipped (initial_stats (length (first :: rest))) 1),
                    extend w [EvRead PROGRESS_FILE])).
  { unfold resume_offset, bind. rewrite Hmode.
    rewrite (load_progress_present env w (PDict d)) by (done || apply Hun).
    destruct d as [|kv d']; [done|].
    cbn [truthy]. cbv iota. unfold py_get, ret. by rewrite Hk. }
  destruct (run_from_offset self (first :: rest) env w _ _ _ Hun Hoff)
    as (stats & w' & tr & Hrun & Htr & Hv & Ht & Hs & Hta).
  rewrite filter_indices_tail in Hv.
  exists stats, w', tr. repeat split; try done.
  - rewrite Htr. simpl. by rewrite <- app_assoc.
  - rewrite Hta, Hv, length_indices_from. unfold tally. simpl. lia.
Qed.

Lemma resume_record_without_index_witness :
  resume_mode resuming_tool = true
  /\ uninterrupted (calm_env api_accepts)
  /\ exists stats w' tr,
       import_subscriptions resuming_tool [item "A"; item "B"; item "C"]
         (calm_env api_accepts)
         (world_with_ledger (FJson (PDict [("timestamp", PStr "2024-05-01T11:00:00")])))
       = (Ret stats, w')
       /\ trace w' = EvRead PROGRESS_FILE :: tr
       /\ visited tr = [1; 2]
       /\ skipped stats = 1.
Proof.
  assert (Hun : uninterrupted (calm_env api_accepts))
    by (split; [intros t; reflexivity | intros t c; discriminate
               | intros t c d; discriminate]).
  split; [reflexivity|]. split; [exact Hun|].
  destruct (resume_record_without_index resuming_tool (item "A") [item "B"; item "C"]
              (calm_env api_accepts)
              (world_with_ledger (FJson (PDict [("timestamp", PStr "2024-05-01T11:00:00")])))
              [("timestamp", PStr "2024-05-01T11:00:00")]
              eq_refl Hun eq_refl eq_refl)
    as (stats & w' & tr & Hrun & Htr & Hv & Hs & _);
    [discriminate | reflexivity |].
  exists stats, w', tr. split; [exact Hrun|]. split; [exact Htr|].
  split; [exact Hv | exact Hs].
Defined.

(** X8. The books of a resumed run balance when the record lies within the
    list.  In resume mode with a record of index [k], [-1 <= k < len(items)],
    a run that nothing interrupts visits the indices [k+1 .. len-1] and
    returns [skipped + successful + failed + already_subscribed = total]. *)
Theorem resumed_run_accounting self items env w d k :
  resume_mode self = true ->
  uninterrupted env ->
  env_read env (now_ticks w) = DiskOk ->
  fs w !! PROGRESS_FILE = Some (FJson (PDict d)) ->
  assoc "last_processed_index" d = Some (PInt k) ->
  -1 <= k < Z.of_nat (length items) ->
  exists stats w',
    import_subscriptions self items env w = (Ret stats, w')
    /\ total stats = Z.of_nat (length items)
    /\ skipped stats = k + 1
    /\ successful stats + failed stats + already_subscribed stats
       = Z.of_nat (length items) - (k + 1)
    /\ skipped stats + successful stats + failed stats + already_subscribed stats
       = total stats.
Proof.
  intros Hmode Hun Hr Hf Hk Hrange.
  pose proof (resume_offset_record self (initial_stats (length items)) env w d k
                Hmode (no_interrupt _ Hun) Hr Hf Hk) as Hoff.
  destruct (run_from_offset self items env w _ _ _ Hun Hoff)
    as (stats & w' & tr & Hrun & _ & Hv & Ht & Hs & Hta).
  rewrite Hv, length_filter_indices in Hta by lia.
  unfold tally in Hta. simpl in Hta, Ht, Hs.
  exists stats, w'. repeat split; try done; lia.
Qed.

Lemma resumed_run_accounting_witness :
  resume_mode resuming_tool = true
  /\ uninterrupted (calm_env api_accepts)
  /\ -1 <= 0 < Z.of_nat (length [item "A"; item "B"; item "C"])
  /\ exists stats w',
       import_subscriptions resuming_tool [item "A"; item "B"; item "C"]
         (calm_env api_accepts) (world_with_record 0) = (Ret stats, w')
       /\ skipped stats = 1
       /\ successful stats + failed stats + already_subscribed stats = 2.
Proof.
  assert (Hun : uninterrupted (calm_env api_accepts))
    by (split; [intros t; reflexivity | intros t c; discriminate
               | intros t c d; discriminate]).
  assert (Hrange : -1 <= 0 < Z.of_nat (length [item "A"; item "B"; item "C"]))
    by (simpl; lia).
  split; [reflexivity|]. split; [exact Hun|]. split; [exact Hrange|].
  destruct (resumed_run_accounting resuming_tool [item "A"; item "B"; item "C"]
              (calm_env api_accepts) (world_with_record 0) _ 0
              eq_refl Hun eq_refl eq_refl eq_refl Hrange)
    as (stats & w' & Hrun & _ & Hs & Hsum & _).
  exists stats, w'. split; [exact Hrun|]. split; [exact Hs | exact Hsum].
Defined.

(** ** What the engine leaves alone *)

Lemma tidy_ret {A : Type} (a : A) : tidy (ret a).
Proof. intros env w. split; [exists []; simpl; by rewrite app_nil_r | done]. Qed.

Lemma tidy_raise {A : Type} (e : exn) : tidy (@raise A e).
Proof. intros env w. split; [exists []; simpl; by rewrite app_nil_r | done]. Qed.

Lemma tidy_bind {A B : Type} (m : M A) (k : A -> M B) :
  tidy m -> (forall a, tidy (k a)) -> tidy (bind m k).
Proof.
  intros Hm Hk env w. unfold bind.
  destruct (Hm env w) as [[d Hd] Hfs].
  destruct (m env w) as [[a|e] w1]; simpl in *.
  - destruct (Hk a env w1) as [[d' Hd'] Hfs']. split.
    + exists (d ++ d'). by rewrite Hd', Hd, <- app_assoc.
    + intros p Hp. by rewrite Hfs', Hfs.
  - split; [by eauto | done].
Qed.

Lemma tidy_try {A : Type} (body : M A) (handlers : exn -> option (M A)) :
  tidy body -> (forall e h, handlers e = Some h -> tidy h) ->
  tidy (try_ body handlers).
Proof.
  intros Hm Hh env w. unfold try_.
  destruct (Hm env w) as [[d Hd] Hfs].
  destruct (body env w) as [[a|e] w1]; simpl in *.
  - split; [by eauto | done].
  - destruct (handlers e) as [h|] eqn:He; simpl.
    + destruct (Hh e h He env w1) as [[d' Hd'] Hfs']. split.
      * exists (d ++ d'). by rewrite Hd', Hd, <- app_assoc.
      * intros p Hp. by rewrite Hfs', Hfs.
    + split; [by eauto | done].
Qed.

Lemma tidy_try_Exception {A : Type} (body h : M A) :
  tidy body -> tidy h -> tidy (try_ body (except_Exception h)).
Proof.
  intros Hm Hh. apply tidy_try; [done|].
  intros e h'. unfold except_Exception. destruct (is_Exception e); by intros [= <-].
Qed.

Lemma tidy_external {A : Type} (ev : event)
    (effect : Env -> nat -> World -> outcome A * World) :
  (forall env t w,
      trace (snd (effect env t w)) = trace w
      /\ forall p, p <> PROGRESS_FILE -> fs (snd (effect env t w)) !! p = fs w !! p) ->
  tidy (external ev effect).
Proof.
  intros Heff env w. unfold external.
  destruct (env_interrupt env (now_ticks w)); simpl.
  - split; [exists []; by rewrite app_nil_r | done].
  - destruct (Heff env (now_ticks w) (record_event ev w)) as [Htr Hfs].
    split; [exists [ev]; by rewrite Htr | done].
Qed.

Lemma tidy_execute r : tidy (execute r).
Proof.
  apply tidy_external. intros env t w. by destruct (env_api env t r).
Qed.

Lemma tidy_sleep q : tidy (sleep q).
Proof. by apply tidy_external. Qed.

Lemma tidy_write_progress doc : tidy (write_json PROGRESS_FILE doc).
Proof.
  apply tidy_external. intros env t w.
  destruct (env_write env t); simpl; (split; [done|]); try done;
    intros p Hp; by rewrite lookup_insert_ne.
Qed.

Lemma tidy_read_json path : tidy (read_json path).
Proof.
  apply tidy_external. intros env t w.
  destruct (env_read env t); simpl; try done.
  by destruct (fs w !! path) as [[]|].
Qed.

Lemma tidy_remove_progress : tidy (os_remove PROGRESS_FILE).
Proof.
  apply tidy_external. intros env t w.
  destruct (env_remove env t); simpl; try done.
  destruct (fs w !! PROGRESS_FILE); simpl; (split; [done|]); try done.
  intros p Hp. by rewrite lookup_delete_ne.
Qed.

Lemma tidy_datetime_now : tidy datetime_now.
Proof. intros env w. split; [exists []; simpl; by rewrite app_nil_r | done]. Qed.

Lemma tidy_path_exists path : tidy (path_exists path).
Proof. intros env w. split; [exists []; simpl; by rewrite app_nil_r | done]. Qed.

Lemma tidy_py_get obj key default : tidy (py_get obj key default).
Proof. destruct obj; simpl; (apply tidy_ret || apply tidy_raise). Qed.

Lemma tidy_py_add1 obj : tidy (py_add1 obj).
Proof. destruct obj; simpl; (apply tidy_ret || apply tidy_raise). Qed.

Lemma tidy_error_reason d : tidy (error_reason d).
Proof.
  intros env w.
  destruct (error_reason_pure d) as [[v Hv] | [e He]];
    [rewrite Hv | rewrite He]; simpl;
    (split; [exists []; by rewrite app_nil_r | done]).
Qed.

Create HintDb tidy.
#[local] Hint Resolve tidy_ret tidy_raise tidy_execute tidy_sleep tidy_write_progress
  tidy_read_json tidy_remove_progress tidy_datetime_now tidy_path_exists
  tidy_py_get tidy_py_add1 tidy_error_reason : tidy.

(** Takes a computation apart along its binds, handlers and tests. *)
Ltac tidy_steps :=
  repeat first
    [ solve [auto with tidy]
    | apply tidy_bind; [|intros ?]
    | apply tidy_try_Exception
    | apply tidy_try; [|intros [] ? ?; simplify_eq]
    | match goal with
      | |- tidy (if ?b then _ else _) => destruct b
      | |- tidy (match ?x with _ => _ end) => destruct x
      | |- tidy (let _ := _ in _) => cbv zeta
      end ].

Lemma tidy_save_progress i c tot : tidy (save_progress i c tot).
Proof. unfold save_progress. tidy_steps. Qed.

Lemma tidy_load_progress : tidy load_progress.
Proof. unfold load_progress. tidy_steps. Qed.

Lemma tidy_clear_progress : tidy clear_progress.
Proof. unfold clear_progress. tidy_steps. Qed.

Lemma tidy_is_already_subscribed c : tidy (is_already_subscribed c).
Proof. unfold is_already_subscribed. tidy_steps. Qed.

Lemma tidy_subscribe_attempt c m a : tidy (subscribe_attempt c m a).
Proof. unfold subscribe_attempt. tidy_steps. Qed.

Lemma tidy_subscribe_to_channel c title m : tidy (subscribe_to_channel c title m).
Proof.
  unfold subscribe_to_channel. induction (range m) as [|a rest IH]; simpl.
  - apply tidy_ret.
  - apply tidy_bind; [apply tidy_subscribe_attempt|].
    intros [b|]; [apply tidy_ret | exact IH].
Qed.

#[local] Hint Resolve tidy_save_progress tidy_load_progress tidy_clear_progress
  tidy_is_already_subscribed tidy_subscribe_to_channel : tidy.

Lemma tidy_resume_offset self s : tidy (resume_offset self s).
Proof. unfold resume_offset. tidy_steps. Qed.

(** The turn of the loop once the progress is written. *)
Lemma tidy_after_progress_write self sub s :
  tidy (bind (is_already_subscribed (channel_id sub))
          (fun already : bool =>
             if already then ret (incr_already_subscribed s)
             else
               bind (subscribe_to_channel (channel_id sub) (channel_title sub) 3)
                 (fun ok : bool =>
                    bind (sleep (wait_time self))
                      (fun _ => ret (if ok then incr_successful s else incr_failed s))))).
Proof. tidy_steps. Qed.

Lemma tidy_process_item self i sub s : tidy (process_item self i sub s).
Proof.
  unfold process_item. apply tidy_bind; [auto with tidy|].
  intros _. apply tidy_after_progress_write.
Qed.

Lemma tidy_import_loop self start i items s : tidy (import_loop self start i items s).
Proof.
  revert i s. induction items as [|sub rest IH]; intros i s; simpl.
  - apply tidy_ret.
  - destruct (i <? start); [apply IH|].
    apply tidy_bind; [apply tidy_process_item | intros s'; apply IH].
Qed.

Lemma tidy_import_subscriptions self items : tidy (import_subscriptions self items).
Proof.
  unfold import_subscriptions.
  apply tidy_bind; [apply tidy_resume_offset|]. intros [start s].
  apply tidy_bind; [apply tidy_import_loop|]. intros s'.
  apply tidy_bind; [apply tidy_clear_progress | intros _; apply tidy_ret].
Qed.

(** X9. Of the files other than the log, the engine touches the progress
    record only.  However the run of [import_subscriptions] goes (faults of
    the disk, errors of the service, interrupt), every file that is neither
    the progress record nor the log ([LOG_FILE], to which the handler of
    [logger] appends and which the model does not track), the snapshot among
    them, is afterwards as it was before. *)
Theorem engine_touches_only_the_ledger self items env w path :
  path <> PROGRESS_FILE ->
  path <> LOG_FILE ->
  fs (snd (import_subscriptions self items env w)) !! path = fs w !! path.
Proof. intros Hp _. by apply tidy_import_subscriptions. Qed.

Lemma engine_touches_only_the_ledger_witness :
  SUBSCRIPTIONS_DATA_FILE <> PROGRESS_FILE
  /\ SUBSCRIPTIONS_DATA_FILE <> LOG_FILE
  /\ fs (snd (import_subscriptions fresh_tool [item "A"; item "B"] interrupted_env
                (world_with_snapshot (FJson miscounted_snapshot))))
       !! SUBSCRIPTIONS_DATA_FILE
     = Some (FJson miscounted_snapshot).
Proof.
  assert (Hne : SUBSCRIPTIONS_DATA_FILE <> PROGRESS_FILE) by discriminate.
  assert (Hlog : SUBSCRIPTIONS_DATA_FILE <> LOG_FILE) by discriminate.
  split; [exact Hne|]. split; [exact Hlog|].
  rewrite (engine_touches_only_the_ledger fresh_tool [item "A"; item "B"]
             interrupted_env (world_with_snapshot (FJson miscounted_snapshot))
             SUBSCRIPTIONS_DATA_FILE Hne Hlog).
  reflexivity.
Defined.

Lemma save_progress_any env w i c tot :
  save_progress i c tot env w = (Raise KeyboardInterrupt, w)
  \/ exists w1,
       save_progress i c tot env w = (Ret tt, w1)
       /\ trace w1
          = trace w
              ++ [EvWrite PROGRESS_FILE
                    (progress_data i c tot (env_now env (now_ticks w)))].
Proof.
  unfold save_progress, bind, datetime_now, try_, write_json, external.
  destruct (env_interrupt env (now_ticks w)); [by left|]. right.
  destruct (env_write env (now_ticks w)); simpl; by eauto.
Qed.

(** X10. The progress write comes first.  However the turn of the loop for the
    item of index [i] goes, its actions, if it has any, begin with the write
    of the record of index [i]: no call to the service for an item precedes
    the write. *)
Theorem progress_write_comes_first self i sub s env w :
  let w' := snd (process_item self i sub s env w) in
  trace w' = trace w
  \/ exists ts d,
       trace w'
       = trace w
           ++ EvWrite PROGRESS_FILE (progress_data i (channel_id sub) (total s) ts) :: d.
Proof.
  cbv zeta.
  remember (process_item self i sub s env w) as r eqn:Hr.
  unfold process_item in Hr. cbv zeta in Hr. unfold bind at 1 in Hr.
  destruct (save_progress_any env w i (channel_id sub) (total s))
    as [Hsave | (w1 & Hsave & Htr1)]; rewrite Hsave in Hr; subst r; [by left|].
  right. exists (env_now env (now_ticks w)).
  destruct (tidy_after_progress_write self sub s env w1) as [[d Hd] _].
  exists d. rewrite Hd, Htr1. by rewrite <- app_assoc.
Qed.

(** ** A turn of the loop that fails for good *)

Lemma is_already_subscribed_by_outcome c env w :
  env_interrupt env (now_ticks w) = false ->
  is_already_subscribed c env w
  = (match env_api env (now_ticks w) (ReqList c) with
     | ApiReturns items => Ret (0 <? items)%nat
     | ApiHttpError _ => Ret false
     | ApiException => Raise (OtherException "Exception")
     end, extend w [EvApi (ReqList c)]).
Proof.
  intros Hni. unfold is_already_subscribed, bind, try_, execute, external.
  rewrite Hni. by destruct (env_api env (now_ticks w) (ReqList c)).
Qed.

(** X11. An item that fails for good costs one call and the run goes on.  When
    the pre-check does not find the channel among the subscriptions (it
    returns no item, or fails with an [HttpError], which is read as "not
    subscribed") and the mutation answers channelNotFound or quotaExceeded,
    the turn of the loop is: progress write, pre-check, one mutation call, the
    sleep of [wait_time]; it counts the item as failed and returns to the
    loop. *)
Theorem permanent_failure_turn self i sub s env w r :
  never_interrupted env ->
  (forall t, env_api env t (ReqList (channel_id sub)) = ApiReturns 0
             \/ exists d, env_api env t (ReqList (channel_id sub)) = ApiHttpError d) ->
  (forall t, insert_reason (env_api env t (ReqInsert (channel_id sub))) = Some r) ->
  r = "channelNotFound" \/ r = "quotaExceeded" ->
  exists w1,
    save_progress i (channel_id sub) (total s) env w = (Ret tt, w1)
    /\ process_item self i sub s env w
       = (Ret (incr_failed s),
          extend w1 [EvApi (ReqList (channel_id sub));
                     EvApi (ReqInsert (channel_id sub));
                     EvSleep (wait_time self)]).
Proof.
  intros Hni Hq Hins Hr.
  destruct (save_progress_returns env w i (channel_id sub) (total s) Hni)
    as (w1 & Hsave & _ & _).
  exists w1. split; [done|].
  unfold process_item, bind at 1. rewrite Hsave. cbv beta iota zeta.
  unfold bind at 1.
  rewrite (is_already_subscribed_by_outcome (channel_id sub) env w1 (Hni _)).
  assert (Hno : match env_api env (now_ticks w1) (ReqList (channel_id sub)) with
                | ApiReturns items => Ret (0 <? items)%nat
                | ApiHttpError _ => Ret false
                | ApiException => Raise (OtherException "Exception")
                end = Ret false).
  { destruct (Hq (now_ticks w1)) as [-> | [d ->]]; reflexivity. }
  rewrite Hno. cbv beta iota.
  unfold bind at 1, subscribe_to_channel. change (range 3) with [0; 1; 2].
  cbn [subscribe_loop]. unfold bind at 1.
  rewrite (subscribe_attempt_permanent (channel_id sub) 3 0 env _ r (Hni _) (Hins _) Hr).
  cbv beta iota. unfold ret at 1. cbv beta iota.
  unfold bind. rewrite sleep_returns by done. cbv beta iota.
  unfold ret. by rewrite !extend_extend.
Qed.

Lemma permanent_failure_turn_witness :
  never_interrupted (calm_env api_quota)
  /\ (forall t, env_api (calm_env api_quota) t (ReqList (channel_id (item "A")))
                = ApiReturns 0
                \/ exists d, env_api (calm_env api_quota) t
                               (ReqList (channel_id (item "A"))) = ApiHttpError d)
  /\ (forall t, insert_reason (env_api (calm_env api_quota) t
                                 (ReqInsert (channel_id (item "A"))))
                = Some "quotaExceeded")
  /\ exists w',
       process_item fresh_tool 0 (item "A") (initial_stats 1) (calm_env api_quota)
         empty_world
       = (Ret (incr_failed (initial_stats 1)), w')
       /\ attempted (trace w') = ["A"]
       /\ sleeps (trace w') = [wait_time fresh_tool].
Proof.
  assert (Hni : never_interrupted (calm_env api_quota)) by (intros t; reflexivity).
  assert (Hq : forall t,
             env_api (calm_env api_quota) t (ReqList (channel_id (item "A")))
             = ApiReturns 0
             \/ exists d, env_api (calm_env api_quota) t
                            (ReqList (channel_id (item "A"))) = ApiHttpError d)
    by (intros t; right; eexists; reflexivity).
  assert (Hins : forall t,
             insert_reason (env_api (calm_env api_quota) t
                              (ReqInsert (channel_id (item "A"))))
             = Some "quotaExceeded") by (intros t; reflexivity).
  split; [exact Hni|]. split; [exact Hq|]. split; [exact Hins|].
  destruct (permanent_failure_turn fresh_tool 0 (item "A") (initial_stats 1)
              (calm_env api_quota) empty_world "quotaExceeded" Hni Hq Hins
              (or_intror eq_refl)) as (w1 & Hsave & Hitem).
  injection Hsave as <-.
  eexists. split; [exact Hitem|]. split; reflexivity.
Defined.

(** ** Snapshot store, off the round trip *)

(** X12. A save that fails says so and raises nothing.  When the write fails,
    [save_subscriptions] returns false; if the file could not be opened the
    snapshot that was there is untouched, but if the write broke off after the
    file was opened, the old snapshot is gone: [load_subscriptions] then
    returns the empty list. *)
Theorem failed_save_reports_false subscriptions filename env w :
  never_interrupted env ->
  env_write env (now_ticks w) <> DiskOk ->
  let path := default SUBSCRIPTIONS_DATA_FILE filename in
  exists w1,
    save_subscriptions subscriptions filename env w = (Ret false, w1)
    /\ (env_write env (now_ticks w) = DiskError -> fs w1 = fs w)
    /\ (env_write env (now_ticks w) = DiskTorn ->
        forall env' w',
          never_interrupted env' ->
          fs w' !! path = fs w1 !! path ->
          load_subscriptions filename env' w'
          = (Ret (PList []), extend w' [EvRead path])).
Proof.
  intros Hni Hw path.
  unfold save_subscriptions, bind, try_, datetime_now, write_json, external.
  rewrite (Hni _). fold path.
  destruct (env_write env (now_ticks w)) eqn:E; [done| |]; simpl.
  - eexists. split; [reflexivity|]. split; [done | discriminate].
  - eexists. split; [reflexivity|]. split; [discriminate|].
    intros _ env' w' Hni' Hsame. simpl in Hsame.
    rewrite lookup_insert_eq in Hsame.
    apply load_subscriptions_unreadable; [done|]. right. left. exact Hsame.
Qed.

Lemma failed_save_reports_false_witness :
  never_interrupted faulty_disk_env
  /\ env_write faulty_disk_env (now_ticks empty_world) <> DiskOk
  /\ exists w1,
       save_subscriptions [item "A"] None faulty_disk_env empty_world = (Ret false, w1)
       /\ load_subscriptions None (calm_env api_accepts) (restart w1)
          = (Ret (PList []), extend (restart w1) [EvRead SUBSCRIPTIONS_DATA_FILE]).
Proof.
  assert (Hni : never_interrupted faulty_disk_env) by (intros t; reflexivity).
  assert (Hni' : never_interrupted (calm_env api_accepts)) by (intros t; reflexivity).
  assert (Hw : env_write faulty_disk_env (now_ticks empty_world) <> DiskOk)
    by discriminate.
  split; [exact Hni|]. split; [exact Hw|].
  destruct (failed_save_reports_false [item "A"] None faulty_disk_env empty_world Hni Hw)
    as (w1 & Hsave & _ & Htorn).
  exists w1. split; [exact Hsave|].
  exact (Htorn eq_refl (calm_env api_accepts) (restart w1) Hni' eq_refl).
Defined.

(** X13. [load_subscriptions] reads the list and nothing else.  From a readable
    JSON document it returns the value of [subscriptions] when that is a list,
    whatever [total_subscriptions] and [export_date] say and whatever the
    elements are; it returns the empty list when the key is missing and when
    the document is not a dict. *)
Theorem load_reads_only_the_list filename env w doc :
  never_interrupted env ->
  env_read env (now_ticks w) = DiskOk ->
  let path := default SUBSCRIPTIONS_DATA_FILE filename in
  fs w !! path = Some (FJson doc) ->
  (forall d l,
      doc = PDict d -> assoc "subscriptions" d = Some (PList l) ->
      load_subscriptions filename env w = (Ret (PList l), extend w [EvRead path]))
  /\ (forall d,
        doc = PDict d -> assoc "subscriptions" d = None ->
        load_subscriptions filename env w = (Ret (PList []), extend w [EvRead path]))
  /\ ((forall d, doc <> PDict d) ->
      load_subscriptions filename env w = (Ret (PList []), extend w [EvRead path])).
Proof.
  intros Hni Hr path Hf.
  assert (Hload : load_subscriptions filename env w
                  = try_ (bind (ret doc)
                            (fun data =>
                               bind (py_get data "subscriptions" (PList []))
                                 (fun subscriptions =>
                                    bind (py_len subscriptions)
                                      (fun _ => ret subscriptions))))
                      (except_Exception (ret (PList []))) env
                      (extend w [EvRead path])).
  { unfold load_subscriptions, try_, bind at 1 4, read_json, external.
    fold path. rewrite (Hni _), Hr. simpl. by rewrite Hf. }
  rewrite Hload. repeat split.
  - intros d l -> Hl. unfold try_, bind, ret, py_get. by rewrite Hl.
  - intros d -> Hnone. unfold try_, bind, ret, py_get. by rewrite Hnone.
  - intros Hnodict. destruct doc; try reflexivity. by destruct (Hnodict d).
Qed.

Lemma load_reads_only_the_list_witness :
  never_interrupted (calm_env api_accepts)
  /\ env_read (calm_env api_accepts)
       (now_ticks (world_with_snapshot (FJson miscounted_snapshot))) = DiskOk
  /\ load_subscriptions None (calm_env api_accepts)
       (world_with_snapshot (FJson miscounted_snapshot))
     = (Ret (PList [subscription_data (item "A")]),
        extend (world_with_snapshot (FJson miscounted_snapshot))
          [EvRead SUBSCRIPTIONS_DATA_FILE]).
Proof.
  assert (Hni : never_interrupted (calm_env api_accepts)) by (intros t; reflexivity).
  split; [exact Hni|]. split; [reflexivity|].
  exact (proj1 (load_reads_only_the_list None (calm_env api_accepts)
                  (world_with_snapshot (FJson miscounted_snapshot))
                  miscounted_snapshot Hni eq_refl eq_refl)
           _ [subscription_data (item "A")] eq_refl eq_refl).
Defined.

(** ** Extraction *)

Lemma extract_item_api_item s env w :
  extract_item (api_item s) env w = (Ret (subscription_data s), w).
Proof. reflexivity. Qed.

Lemma collect_items_api_items items acc env w :
  collect_items (map api_item items) acc env w
  = (Ret (acc ++ map subscription_data items), w).
Proof.
  revert acc. induction items as [|s items IH]; intros acc; simpl.
  - by rewrite app_nil_r.
  - unfold bind. rewrite extract_item_api_item. rewrite IH.
    by rewrite <- app_assoc.
Qed.

Lemma extract_page_listed self pages n acc token env w d items :
  never_interrupted env ->
  pages n token = ListingReturns (PDict d) ->
  page_items d = PList (map api_item items) ->
  extract_page self pages n acc token env w
  = if truthy (page_token d)
    then (Ret (acc ++ map subscription_data items, Some (page_token d)),
          extend w [EvSleep (py_min (1 # 10) (wait_time self))])
    else (Ret (acc ++ map subscription_data items, None), w).
Proof.
  intros Hni Hpage Hitems.
  unfold extract_page, try_. rewrite Hpage.
  unfold listing, bind at 1, ret at 1. cbv beta iota.
  unfold py_get at 1. fold (page_items d). rewrite Hitems.
  unfold bind at 1, ret at 1. cbv beta iota.
  unfold py_iter, bind at 1, ret at 1. cbv beta iota.
  unfold bind at 1. rewrite collect_items_api_items. cbv beta iota.
  unfold py_get at 1. fold (page_items d). rewrite Hitems.
  unfold bind at 1, ret at 1. cbv beta iota.
  unfold py_len, bind at 1, ret at 1. cbv beta iota.
  unfold py_get at 1. fold (page_token d).
  unfold bind at 1, ret at 1. cbv beta iota.
  destruct (truthy (page_token d)); cbn [negb]; cbv beta iota.
  - unfold bind. rewrite sleep_returns by done. reflexivity.
  - reflexivity.
Qed.

Lemma extract_page_failed self pages n acc token env w e :
  pages n token = ListingHttpError e ->
  extract_page self pages n acc token env w = (Ret (acc, None), w).
Proof. intros Hpage. unfold extract_page, try_, bind. by rewrite Hpage. Qed.

Lemma extract_pages_paging self pages n token chapters k :
  paging pages n token chapters k ->
  forall fuel acc env w,
    never_interrupted env ->
    (k < fuel)%nat ->
    extract_pages fuel self pages n acc token env w
    = (Ret (Some (acc ++ map subscription_data (concat chapters))),
       extend w (replicate k (EvSleep (py_min (1 # 10) (wait_time self))))).
Proof.
  induction 1 as [n token d items Hpage Hitems Hlast
                 | n token e Hpage
                 | n token d items rest k Hpage Hitems Hmore _ IH];
    intros fuel acc env w Hni Hfuel; (destruct fuel as [|fuel]; [lia|]);
    cbn [extract_pages]; unfold bind at 1.
  - rewrite (extract_page_listed self pages n acc token env w d items) by done.
    rewrite Hlast. simpl. by rewrite app_nil_r, extend_nil.
  - rewrite (extract_page_failed self pages n acc token env w e) by done.
    simpl. by rewrite app_nil_r, extend_nil.
  - rewrite (extract_page_listed self pages n acc token env w d items) by done.
    rewrite Hmore. cbv beta iota.
    rewrite IH by (done || lia).
    rewrite extend_extend. simpl. by rewrite map_app, app_assoc.
Qed.

(** X14. The extraction follows the listing.  When the service lists the
    subscriptions page after page, every page but the last naming a next
    page, [extract_subscriptions] returns the dicts of all of them in the
    order listed and sleeps [min(0.1, wait_time)] once after each page that
    names a next one.  The same holds when the listing breaks off: if a call
    fails with an [HttpError], the loop ends and the subscriptions of the
    pages before it are returned as the result, without any exception. *)
Theorem extraction_follows_the_listing self pages chapters k fuel env w :
  never_interrupted env ->
  paging pages 0 PNone chapters k ->
  (k < fuel)%nat ->
  extract_subscriptions fuel self pages env w
  = (Ret (Some (map subscription_data (concat chapters))),
     extend w (replicate k (EvSleep (py_min (1 # 10) (wait_time self))))).
Proof.
  intros Hni Hpaging Hfuel. unfold extract_subscriptions.
  by rewrite (extract_pages_paging self pages 0 PNone chapters k Hpaging).
Qed.

Lemma two_pages_paging :
  paging two_pages 0 PNone [[item "A"; item "B"]; [item "C"]] 1.
Proof.
  eapply (paging_more two_pages 0 PNone _ [item "A"; item "B"]);
    [reflexivity | reflexivity | reflexivity |].
  eapply (paging_last two_pages 1 _ _ [item "C"]); reflexivity.
Qed.

Lemma second_page_fails_paging :
  paging second_page_fails 0 PNone [[item "A"; item "B"]] 1.
Proof.
  eapply (paging_more second_page_fails 0 PNone _ [item "A"; item "B"]);
    [reflexivity | reflexivity | reflexivity |].
  eapply (paging_failed second_page_fails 1). reflexivity.
Qed.

Lemma extraction_follows_the_listing_witness :
  never_interrupted (calm_env api_accepts)
  /\ paging two_pages 0 PNone [[item "A"; item "B"]; [item "C"]] 1
  /\ paging second_page_fails 0 PNone [[item "A"; item "B"]] 1
  /\ extract_subscriptions 5 fresh_tool two_pages (calm_env api_accepts) empty_world
     = (Ret (Some [subscription_data (item "A"); subscription_data (item "B");
                   subscription_data (item "C")]),
        extend empty_world [EvSleep (1 # 10)])
  /\ extract_subscriptions 5 fresh_tool second_page_fails (calm_env api_accepts)
       empty_world
     = (Ret (Some [subscription_data (item "A"); subscription_data (item "B")]),
        extend empty_world [EvSleep (1 # 10)]).
Proof.
  assert (Hni : never_interrupted (calm_env api_accepts)) by (intros t; reflexivity).
  assert (Hfuel : (1 < 5)%nat) by lia.
  split; [exact Hni|]. split; [exact two_pages_paging|].
  split; [exact second_page_fails_paging|]. split.
  - exact (extraction_follows_the_listing fresh_tool two_pages
             [[item "A"; item "B"]; [item "C"]] 1 5 (calm_env api_accepts) empty_world
             Hni two_pages_paging Hfuel).
  - exact (extraction_follows_the_listing fresh_tool second_page_fails
             [[item "A"; item "B"]] 1 5 (calm_env api_accepts) empty_world
             Hni second_page_fails_paging Hfuel).
Defined.

(** X15. Of a listed item, [extract_subscriptions] needs the id, the title, the
    date and the channel id, and takes the description if there is one.  For
    an item that has [id], [snippet.resourceId.channelId], [snippet.title] and
    [snippet.publishedAt], the dict built holds these values and, as
    [channel_description], [snippet.description] or the empty string when the
    key is missing.  An item without [snippet], or whose snippet has no
    [title], raises [KeyError] instead. *)
Theorem extracted_item_fields it env w :
  (forall sn rid cid title published id,
      assoc "snippet" it = Some (PDict sn) ->
      assoc "resourceId" sn = Some (PDict rid) ->
      assoc "channelId" rid = Some cid ->
      assoc "title" sn = Some title ->
      assoc "publishedAt" sn = Some published ->
      assoc "id" it = Some id ->
      extract_item (PDict it) env w
      = (Ret (PDict [("channel_id", cid);
                     ("channel_title", title);
                     ("channel_description",
                      match assoc "description" sn with
                      | Some description => description
                      | None => PStr ""
                      end);
                     ("published_at", published);
                     ("subscription_id", id)]), w))
  /\ (assoc "snippet" it = None ->
      extract_item (PDict it) env w = (Raise (OtherException "KeyError"), w))
  /\ (forall sn rid cid,
        assoc "snippet" it = Some (PDict sn) ->
        assoc "resourceId" sn = Some (PDict rid) ->
        assoc "channelId" rid = Some cid ->
        assoc "title" sn = None ->
        extract_item (PDict it) env w = (Raise (OtherException "KeyError"), w)).
Proof.
  split; [|split].
  - intros sn rid cid title published id Hsn Hrid Hcid Htitle Hpub Hid.
    unfold extract_item, bind, py_item, py_get, ret.
    by rewrite Hsn, Hrid, Hcid, Htitle, Hpub, Hid.
  - intros Hsn. unfold extract_item, bind, py_item, raise. by rewrite Hsn.
  - intros sn rid cid Hsn Hrid Hcid Htitle.
    unfold extract_item, bind, py_item, py_get, ret, raise.
    by rewrite Hsn, Hrid, Hcid, Htitle.
Qed.

Lemma extracted_item_fields_witness :
  extract_item bare_item (calm_env api_accepts) empty_world
  = (Ret (PDict [("channel_id", PStr "UC1");
                 ("channel_title", PStr "Channel One");
                 ("channel_description", PStr "");
                 ("published_at", PStr "2020-02-02T00:00:00Z");
                 ("subscription_id", PStr "sub-1")]), empty_world)
  /\ extract_item (PDict [("id", PStr "sub-9")]) (calm_env api_accepts) empty_world
     = (Raise (OtherException "KeyError"), empty_world).
Proof.
  split.
  - exact (proj1 (extracted_item_fields
                    [("id", PStr "sub-1");
                     ("snippet",
                      PDict [("publishedAt", PStr "2020-02-02T00:00:00Z");
                             ("title", PStr "Channel One");
                             ("resourceId", PDict [("channelId", PStr "UC1")])])]
                    (calm_env api_accepts) empty_world)
             [("publishedAt", PStr "2020-02-02T00:00:00Z");
              ("title", PStr "Channel One");
              ("resourceId", PDict [("channelId", PStr "UC1")])]
             [("channelId", PStr "UC1")]
             (PStr "UC1") (PStr "Channel One") (PStr "2020-02-02T00:00:00Z")
             (PStr "sub-1") eq_refl eq_refl eq_refl eq_refl eq_refl eq_refl).
  - exact (proj1 (proj2 (extracted_item_fields [("id", PStr "sub-9")]
                           (calm_env api_accepts) empty_world)) eq_refl).
Defined.

Lemma collect_items_raises good bad rest acc name env w :
  (forall env w, extract_item bad env w = (Raise (OtherException name), w)) ->
  collect_items (map api_item good ++ bad :: rest) acc env w
  = (Raise (OtherException name), w).
Proof.
  intros Hbad. revert acc. induction good as [|s good IH]; intros acc; simpl.
  - unfold bind. by rewrite Hbad.
  - unfold bind. rewrite extract_item_api_item. apply IH.
Qed.

(** X16. One listed item that lacks a needed key loses the whole extraction.
    The exception that building its dict raises ([KeyError], [TypeError]) is
    not an [HttpError]: it leaves [extract_subscriptions], and with it go the
    subscriptions gathered so far, of this page and of the pages before. *)
Theorem malformed_item_aborts_extraction self pages n acc token fuel env w
    d good bad rest name :
  pages n token = ListingReturns (PDict d) ->
  page_items d = PList (map api_item good ++ bad :: rest) ->
  (forall env w, extract_item bad env w = (Raise (OtherException name), w)) ->
  extract_pages (S fuel) self pages n acc token env w
  = (Raise (OtherException name), w).
Proof.
  intros Hpage Hitems Hbad.
  cbn [extract_pages]. unfold bind at 1, extract_page, try_. rewrite Hpage.
  unfold listing, bind at 1, ret at 1. cbv beta iota.
  unfold py_get at 1. fold (page_items d). rewrite Hitems.
  unfold bind at 1, ret at 1. cbv beta iota.
  unfold py_iter, bind at 1, ret at 1. cbv beta iota.
  unfold bind at 1. by rewrite (collect_items_raises good bad rest acc name).
Qed.

Lemma malformed_item_aborts_extraction_witness :
  (forall env w,
      extract_item (PDict [("id", PStr "sub-9")]) env w
      = (Raise (OtherException "KeyError"), w))
  /\ extract_subscriptions 5 fresh_tool one_page_with_stray_item
       (calm_env api_accepts) empty_world
     = (Raise (OtherException "KeyError"), empty_world).
Proof.
  assert (Hbad : forall env w,
             extract_item (PDict [("id", PStr "sub-9")]) env w
             = (Raise (OtherException "KeyError"), w))
    by (intros env w; reflexivity).
  split; [exact Hbad|].
  exact (malformed_item_aborts_extraction fresh_tool one_page_with_stray_item
           0 [] PNone 4 (calm_env api_accepts) empty_world
           [("items", PList [api_item (item "A"); PDict [("id", PStr "sub-9")];
                             api_item (item "C")])]
           [item "A"] (PDict [("id", PStr "sub-9")]) [api_item (item "C")]
           "KeyError" eq_refl eq_refl Hbad).
Defined.

(** ** Channel information *)

(** X17. [get_channel_info] answers [None] to an [HttpError] and to a response
    whose [items] is empty, but a response without the key [items] makes it
    raise [KeyError] (only [HttpError] is caught).  From a response with a
    channel it returns the id and the title, and the description and the
    custom URL or the empty string in their place. *)
Theorem channel_info_outcomes env w :
  (forall e, get_channel_info (ListingHttpError e) env w = (Ret PNone, w))
  /\ (forall d items,
        assoc "items" d = Some items -> truthy items = false ->
        get_channel_info (ListingReturns (PDict d)) env w = (Ret PNone, w))
  /\ (forall d,
        assoc "items" d = None ->
        get_channel_info (ListingReturns (PDict d)) env w
        = (Raise (OtherException "KeyError"), w))
  /\ (forall d ch rest sn id title,
        assoc "items" d = Some (PList (PDict ch :: rest)) ->
        assoc "id" ch = Some id ->
        assoc "snippet" ch = Some (PDict sn) ->
        assoc "title" sn = Some title ->
        get_channel_info (ListingReturns (PDict d)) env w
        = (Ret (PDict [("id", id);
                       ("title", title);
                       ("description",
                        match assoc "description" sn with
                        | Some v => v
                        | None => PStr ""
                        end);
                       ("customUrl",
                        match assoc "customUrl" sn with
                        | Some v => v
                        | None => PStr ""
                        end)]), w)).
Proof.
  repeat split.
  - intros d items Hitems Hfalse.
    unfold get_channel_info.
    repeat (unfold bind, try_, listing, ret, raise, py_item; cbv beta iota;
            rewrite ?Hitems, ?Hfalse).
    reflexivity.
  - intros d Hnone.
    unfold get_channel_info.
    repeat (unfold bind, try_, listing, ret, raise, py_item; cbv beta iota;
            rewrite ?Hnone).
    reflexivity.
  - intros d ch rest sn id title Hitems Hid Hsn Htitle.
    unfold get_channel_info.
    repeat (unfold bind, try_, listing, ret, raise, py_item, py_first, py_get;
            cbv beta iota; cbn [truthy];
            rewrite ?Hitems, ?Hid, ?Hsn, ?Htitle).
    reflexivity.
Qed.

Lemma channel_info_outcomes_witness :
  get_channel_info (ListingReturns (PDict [("kind", PStr "youtube#channelListResponse")]))
    (calm_env api_accepts) empty_world
  = (Raise (OtherException "KeyError"), empty_world)
  /\ get_channel_info
       (ListingReturns (PDict [("items", PList [])])) (calm_env api_accepts) empty_world
     = (Ret PNone, empty_world).
Proof.
  destruct (channel_info_outcomes (calm_env api_accepts) empty_world)
    as (_ & Hempty & Hmissing & _).
  split.
  - exact (Hmissing [("kind", PStr "youtube#channelListResponse")] eq_refl).
  - exact (Hempty [("items", PList [])] (PList []) eq_refl eq_refl).
Defined.

(** ** The menu *)

(** Settles a statement of the menu for a choice that is one of the labels. *)
Ltac settle_menu_case :=
  vm_compute; repeat split; intros; try discriminate; try tauto;
  repeat match goal with
         | H : _ \/ _ |- _ => destruct H
         | H : _ /\ _ |- _ => destruct H
         | H : False |- _ => destruct H
         end;
  try discriminate; try congruence; auto 10.

(** X18. The menu accepts what its prompt offers.  In each of its states
    (progress found or not, [--resume] or not) a choice is taken by a branch
    other than "invalid" exactly when it is one of the labels [1] to
    [max_choice]; the last of these labels, and no other choice, is the exit;
    and the resume branch is reached by [3] exactly when progress was found
    and [--resume] was not given. *)
Theorem menu_accepts_what_it_offers choice existing_progress args_resume :
  (menu_dispatch choice existing_progress args_resume <> MenuInvalid
   <-> In choice (take (Z.to_nat (max_choice existing_progress args_resume))
                    choice_labels))
  /\ (menu_dispatch choice existing_progress args_resume = MenuExit
      <-> choice_labels !! (Z.to_nat (max_choice existing_progress args_resume) - 1)%nat
          = Some choice)
  /\ (menu_dispatch choice existing_progress args_resume = MenuResume
      <-> choice = "3" /\ existing_progress = true /\ args_resume = false).
Proof.
  destruct (String.eqb_spec choice "1") as [-> | H1];
    [destruct existing_progress, args_resume; settle_menu_case|].
  destruct (String.eqb_spec choice "2") as [-> | H2];
    [destruct existing_progress, args_resume; settle_menu_case|].
  destruct (String.eqb_spec choice "3") as [-> | H3];
    [destruct existing_progress, args_resume; settle_menu_case|].
  destruct (String.eqb_spec choice "4") as [-> | H4];
    [destruct existing_progress, args_resume; settle_menu_case|].
  destruct (String.eqb_spec choice "5") as [-> | H5];
    [destruct existing_progress, args_resume; settle_menu_case|].
  destruct (String.eqb_spec choice "6") as [-> | H6];
    [destruct existing_progress, args_resume; settle_menu_case|].
  assert (Hinv : menu_dispatch choice existing_progress args_resume = MenuInvalid).
  { unfold menu_dispatch.
    rewrite !(proj2 (String.eqb_neq _ _)) by done. reflexivity. }
  rewrite Hinv.
  destruct existing_progress, args_resume; simpl;
    repeat split; intros; try done;
    repeat match goal with
           | H : _ \/ _ |- _ => destruct H
           | H : _ /\ _ |- _ => destruct H
           | H : Some _ = Some _ |- _ => injection H as H
           end;
    try done; try congruence.
Qed.

(** ** What the menu announces and what the engine does *)

(** X19. The resume branch of the menu and the engine read the same record.
    For a record whose index [k] lies within the list, the number of channels
    that [main] announces as remaining is the number the resumed run
    processes.  For a record that is a dict without [last_processed_index]
    the two defaults differ ([-1] in [main], [0] in the engine): [main]
    announces the whole list and the run processes all items but the
    first. *)
Theorem announced_remaining_vs_processed self items env w d :
  resume_mode self = true ->
  uninterrupted env ->
  env_read env (now_ticks w) = DiskOk ->
  fs w !! PROGRESS_FILE = Some (FJson (PDict d)) ->
  d <> [] ->
  let n := Z.of_nat (length items) in
  (forall k,
      assoc "last_processed_index" d = Some (PInt k) ->
      -1 <= k < n ->
      exists stats w',
        resume_remaining (PDict d) n env w = (Ret (n - (k + 1)), w)
        /\ import_subscriptions self items env w = (Ret stats, w')
        /\ tally stats = n - (k + 1))
  /\ (assoc "last_processed_index" d = None ->
      items <> [] ->
      exists stats w',
        resume_remaining (PDict d) n env w = (Ret n, w)
        /\ import_subscriptions self items env w = (Ret stats, w')
        /\ tally stats = n - 1).
Proof.
  intros Hmode Hun Hr Hf Hd n. split.
  - intros k Hk Hrange.
    pose proof (resume_offset_record self (initial_stats (length items)) env w d k
                  Hmode (no_interrupt _ Hun) Hr Hf Hk) as Hoff.
    destruct (run_from_offset self items env w _ _ _ Hun Hoff)
      as (stats & w' & tr & Hrun & _ & Hv & _ & _ & Hta).
    rewrite Hv, length_filter_indices in Hta by (unfold n in *; lia).
    exists stats, w'. split; [|split; [done|]].
    + unfold resume_remaining, bind, py_get, ret, py_add1. by rewrite Hk.
    + unfold tally in *. simpl in Hta. unfold n. lia.
  - intros Hk Hitems.
    destruct items as [|first rest]; [done|].
    assert (Hoff : resume_offset self (initial_stats (length (first :: rest))) env w
                   = (Ret (1, set_skipped (initial_stats (length (first :: rest))) 1),
                      extend w [EvRead PROGRESS_FILE])).
    { unfold resume_offset, bind. rewrite Hmode.
      rewrite (load_progress_present env w (PDict d)) by (done || apply Hun).
      destruct d as [|kv d']; [done|].
      cbn [truthy]. cbv iota. unfold py_get, ret. by rewrite Hk. }
    destruct (run_from_offset self (first :: rest) env w _ _ _ Hun Hoff)
      as (stats & w' & tr & Hrun & _ & Hv & _ & _ & Hta).
    rewrite filter_indices_tail in Hv.
    rewrite Hv, length_indices_from in Hta.
    exists stats, w'. split; [|split; [done|]].
    + unfold resume_remaining, bind, py_get, ret, py_add1. rewrite Hk.
      cbv beta iota. do 2 f_equal; lia.
    + unfold tally in *. simpl in Hta. unfold n. simpl length. lia.
Qed.

Lemma announced_remaining_vs_processed_witness :
  resume_mode resuming_tool = true
  /\ uninterrupted (calm_env api_accepts)
  /\ exists stats w',
       resume_remaining (PDict [("timestamp", PStr "2024-05-01T11:00:00")]) 3
         (calm_env api_accepts)
         (world_with_ledger (FJson (PDict [("timestamp", PStr "2024-05-01T11:00:00")])))
       = (Ret 3,
          world_with_ledger (FJson (PDict [("timestamp", PStr "2024-05-01T11:00:00")])))
       /\ import_subscriptions resuming_tool [item "A"; item "B"; item "C"]
            (calm_env api_accepts)
            (world_with_ledger (FJson (PDict [("timestamp", PStr "2024-05-01T11:00:00")])))
          = (Ret stats, w')
       /\ tally stats = 2.
Proof.
  assert (Hun : uninterrupted (calm_env api_accepts))
    by (split; [intros t; reflexivity | intros t c; discriminate
               | intros t c d; discriminate]).
  split; [reflexivity|]. split; [exact Hun|].
  destruct (announced_remaining_vs_processed resuming_tool
              [item "A"; item "B"; item "C"] (calm_env api_accepts)
              (world_with_ledger (FJson (PDict [("timestamp", PStr "2024-05-01T11:00:00")])))
              [("timestamp", PStr "2024-05-01T11:00:00")]
              eq_refl Hun eq_refl eq_refl)
    as [_ Hmissing]; [discriminate|].
  destruct (Hmissing eq_refl) as (stats & w' & Hrem & Hrun & Hta); [discriminate|].
  exists stats, w'. split; [exact Hrem|]. split; [exact Hrun | exact Hta].
Defined.

(** ** A pre-check that raises *)

(** X20. Only an [HttpError] of the pre-check is contained.  When the query of
    [is_already_subscribed] raises any other exception, at whatever index of
    the loop, the exception leaves the loop of [import_subscriptions]: the
    rest of the list is not visited, no mutation is attempted, and the ledger
    keeps the record of the index under way, written just before. *)
Theorem precheck_exception_ends_the_loop self start i sub rest s env w :
  start <= i ->
  never_interrupted env ->
  env_write env (now_ticks w) = DiskOk ->
  env_api env (S (now_ticks w)) (ReqList (channel_id sub)) = ApiException ->
  exists w',
    import_loop self start i (sub :: rest) s env w
    = (Raise (OtherException "Exception"), w')
    /\ trace w'
       = trace w
           ++ [EvWrite PROGRESS_FILE
                 (progress_data i (channel_id sub) (total s) (env_now env (now_ticks w)));
               EvApi (ReqList (channel_id sub))]
    /\ fs w' !! PROGRESS_FILE
       = Some (FJson (progress_data i (channel_id sub) (total s)
                        (env_now env (now_ticks w)))).
Proof.
  intros Hstart Hni Hw Hq.
  destruct (save_progress_returns env w i (channel_id sub) (total s) Hni)
    as (w1 & Hsave & Htr1 & Hfs1).
  assert (Hticks : now_ticks w1 = S (now_ticks w)).
  { unfold now_ticks. rewrite Htr1, length_app. simpl. lia. }
  exists (extend w1 [EvApi (ReqList (channel_id sub))]).
  split; [|split].
  - cbn [import_loop]. destruct (Z.ltb_spec i start); [lia|].
    unfold bind at 1, process_item, bind at 1. rewrite Hsave.
    cbv beta iota zeta. unfold bind at 1.
    rewrite (is_already_subscribed_by_outcome (channel_id sub) env w1 (Hni _)).
    by rewrite Hticks, Hq.
  - simpl. by rewrite Htr1, <- app_assoc.
  - simpl. by apply Hfs1.
Qed.

Lemma precheck_exception_ends_the_loop_witness :
  0 <= 0
  /\ never_interrupted (calm_env (fun _ => ApiException))
  /\ exists w',
       import_loop fresh_tool 0 0 [item "A"; item "B"] (initial_stats 2)
         (calm_env (fun _ => ApiException)) empty_world
       = (Raise (OtherException "Exception"), w')
       /\ visited (trace w') = [0]
       /\ attempted (trace w') = [].
Proof.
  assert (H0 : 0 <= 0) by lia.
  assert (Hni : never_interrupted (calm_env (fun _ => ApiException)))
    by (intros t; reflexivity).
  split; [exact H0|]. split; [exact Hni|].
  destruct (precheck_exception_ends_the_loop fresh_tool 0 0 (item "A") [item "B"]
              (initial_stats 2) (calm_env (fun _ => ApiException)) empty_world
              H0 Hni eq_refl eq_refl) as (w' & Hrun & Htr & _).
  exists w'. split; [exact Hrun|]. rewrite Htr. split; reflexivity.
Defined.
